(** * CSV analysis agent: a model of [csv_analysis_agent.py] and [main.py]

    The two Python modules are a thin adapter around one external call
    ([claude_code_sdk.query]): they create the report directory, resolve two
    paths, format a prompt, drain the message stream of the agent and read
    the report back.  The development below embeds that code in a small
    state-and-exception monad over an explicit world (working directory,
    file system, environment, module globals, event-loop flag) and records
    every library call the code makes in an event log.

    Modelling conventions.
    - POSIX paths.  A file system is a finite map from absolute locations
      (lists of names below the root) to nodes; it has regular files and
      directories and no symbolic links, permissions or I/O faults.
      Symbolic links are modelled apart, for [Path.resolve()] alone (see
      [realpath]), where the paths of the prompt depend on them.
    - A regular file is represented by its text, i.e. by the string that
      [Path.read_text] yields for it.
    - A Python [str] is represented by its UTF-8 encoding, a Rocq string of
      bytes; slices and lengths count characters (code points), not bytes.
    - The external agent is a state machine [anext] whose steps may rewrite
      the file system; the [async for] loop is run with fuel, and the result
      [Pending] stands for a stream that has not ended yet. *)

From Stdlib Require Import String Ascii List Bool Arith Lia.
From stdpp Require Import gmap strings list fin_maps.

Import ListNotations.
Local Open Scope string_scope.
Local Open Scope list_scope.

(** ** Strings *)

Module Str.

Definition nl : string := String "010"%char EmptyString.
Definition dquote : string := String "034"%char EmptyString.

(** In the UTF-8 encoding of a text the bytes [10xxxxxx] continue a
    character; every other byte starts one. *)
Definition continues (c : ascii) : bool :=
  match c with
  | Ascii _ _ _ _ _ _ b6 b7 => b7 && negb b6
  end.

(** [len(s)]: the number of characters of [s]. *)
Fixpoint len (s : string) : nat :=
  match s with
  | EmptyString => 0
  | String c rest => if continues c then len rest else S (len rest)
  end.

(** [s[:n]]: the first [n] characters of [s], all of [s] when it has fewer. *)
Fixpoint take (n : nat) (s : string) : string :=
  match s with
  | EmptyString => EmptyString
  | String c rest =>
      if continues c then String c (take n rest)
      else match n with
           | O => EmptyString
           | S n' => String c (take n' rest)
           end
  end.

(** ["x" * n] *)
Fixpoint repeat (s : string) (n : nat) : string :=
  match n with
  | O => EmptyString
  | S n' => s +:+ repeat s n'
  end.

(** [sep.join(l)] *)
Fixpoint join (sep : string) (l : list string) : string :=
  match l with
  | [] => EmptyString
  | [x] => x
  | x :: rest => x +:+ sep +:+ join sep rest
  end.

(** [s.split(sep)] for a one-character separator; [cur] is the piece
    being read. *)
Fixpoint split_from (sep : ascii) (cur : string) (s : string) : list string :=
  match s with
  | EmptyString => [cur]
  | String c s' =>
      if Ascii.eqb c sep then cur :: split_from sep EmptyString s'
      else split_from sep (cur +:+ String c EmptyString) s'
  end.

Definition split (sep : ascii) (s : string) : list string :=
  split_from sep EmptyString s.

Definition starts_with (c : ascii) (s : string) : bool :=
  match s with
  | String c' _ => Ascii.eqb c c'
  | EmptyString => false
  end.

(** The lines of a text, each closed by a newline. *)
Fixpoint unlines (l : list string) : string :=
  match l with
  | [] => EmptyString
  | x :: rest => x +:+ nl +:+ unlines rest
  end.

(** Truthiness of a [str]. *)
Definition truthy (s : string) : bool :=
  match s with
  | EmptyString => false
  | String _ _ => true
  end.

End Str.

(** ** Paths ([pathlib.PurePosixPath]) *)

Record PosixPath := MkPath {
  anchored : bool;          (* the path starts at the root *)
  parts : list string       (* its names, without empty and "." segments *)
}.

Definition skipped_segment (c : string) : bool :=
  String.eqb c EmptyString || String.eqb c ".".

(** [Path(s)] *)
Definition Path (s : string) : PosixPath :=
  {| anchored := Str.starts_with "/"%char s;
     parts := List.filter (fun c => negb (skipped_segment c)) (Str.split "/"%char s) |}.

(** [p.parent]; a path without names is its own parent. *)
Definition parent (p : PosixPath) : PosixPath :=
  {| anchored := anchored p; parts := removelast (parts p) |}.

(** An absolute location: the names from the root downwards. *)
Abbreviation Loc := (list string).

(** The entry [c] of the directory at [l]. *)
Definition child (l : Loc) (c : string) : Loc := (l ++ [c])%list.

(** [str(p)] for an absolute path. *)
Definition str_of_loc (l : Loc) : string := "/" +:+ Str.join "/" l.

(** Lexical normalisation: ".." removes the name before it and is dropped
    at the root. *)
Fixpoint normalise (stack : Loc) (names : list string) : Loc :=
  match names with
  | [] => stack
  | c :: rest =>
      if String.eqb c ".." then normalise (removelast stack) rest
      else normalise (child stack c) rest
  end.

(** [p.resolve()] in a file system without symbolic links: the path is made
    absolute against the working directory and normalised. *)
Definition resolve (cwd : Loc) (p : PosixPath) : Loc :=
  normalise (if anchored p then [] else cwd) (parts p).

(** ** File system *)

Inductive node :=
| File (text : string)
| Dir.

Abbreviation FS := (gmap (list string) node).

Inductive errno := ENOENT | ENOTDIR | EEXIST | EISDIR.

(** The root is a directory of every file system. *)
Definition node_at (fs : FS) (l : Loc) : option node :=
  match l with
  | [] => Some Dir
  | _ => fs !! l
  end.

(** Path lookup as the kernel performs it: every name is looked up in the
    directory reached so far. *)
Fixpoint walk (fs : FS) (l : Loc) (names : list string) : errno + Loc :=
  match names with
  | [] => inr l
  | c :: rest =>
      match node_at fs l with
      | None => inl ENOENT
      | Some (File _) => inl ENOTDIR
      | Some Dir =>
          walk fs (if String.eqb c ".." then removelast l else child l c) rest
      end
  end.

Definition start_of (cwd : Loc) (p : PosixPath) : Loc :=
  if anchored p then [] else cwd.

(** [os.stat(p)] *)
Definition stat (cwd : Loc) (fs : FS) (p : PosixPath) : errno + node :=
  match walk fs (start_of cwd p) (parts p) with
  | inl e => inl e
  | inr l =>
      match node_at fs l with
      | Some n => inr n
      | None => inl ENOENT
      end
  end.

(** [p.exists()] *)
Definition path_exists (cwd : Loc) (fs : FS) (p : PosixPath) : bool :=
  match stat cwd fs p with
  | inr _ => true
  | inl _ => false
  end.

(** [p.is_dir()] *)
Definition path_is_dir (cwd : Loc) (fs : FS) (p : PosixPath) : bool :=
  match stat cwd fs p with
  | inr Dir => true
  | _ => false
  end.

(** [os.mkdir(p)]: the new file system, or the error. *)
Definition os_mkdir (cwd : Loc) (fs : FS) (p : PosixPath) : errno + FS :=
  match rev (parts p) with
  | [] => inl EEXIST
  | c :: rev_front =>
      match walk fs (start_of cwd p) (rev rev_front) with
      | inl e => inl e
      | inr l =>
          match node_at fs l with
          | None => inl ENOENT
          | Some (File _) => inl ENOTDIR
          | Some Dir =>
              if String.eqb c ".." then inl EEXIST
              else match fs !! child l c with
                   | Some _ => inl EEXIST
                   | None => inr (<[child l c := Dir]> fs)
                   end
          end
      end
  end.

(** Python exceptions that the modelled code can meet. *)
Inductive Exn :=
| FileNotFoundError
| NotADirectoryError
| FileExistsError
| IsADirectoryError
| RuntimeError (msg : string)
| SystemExit (code : nat)
| AgentError (is_Exception : bool) (msg : string).

(** [isinstance(e, Exception)]: what [except Exception] catches. *)
Definition is_exception (e : Exn) : bool :=
  match e with
  | SystemExit _ => false
  | AgentError b _ => b
  | _ => true
  end.

Definition exn_of_errno (e : errno) : Exn :=
  match e with
  | ENOENT => FileNotFoundError
  | ENOTDIR => NotADirectoryError
  | EEXIST => FileExistsError
  | EISDIR => IsADirectoryError
  end.

(** [p.mkdir(parents=True, exist_ok=True)].  [n] bounds the recursion on the
    parents and is the number of names of [p]. *)
Fixpoint mkdir_parents (n : nat) (cwd : Loc) (fs : FS) (p : PosixPath)
  : option Exn * FS :=
  match os_mkdir cwd fs p with
  | inr fs' => (None, fs')
  | inl ENOENT =>
      match n with
      | O => (Some FileNotFoundError, fs)
      | S n' =>
          match mkdir_parents n' cwd fs (parent p) with
          | (Some e, fs') => (Some e, fs')
          | (None, fs') =>
              match os_mkdir cwd fs' p with
              | inr fs'' => (None, fs'')
              | inl ENOENT => (Some FileNotFoundError, fs')
              | inl e =>
                  if path_is_dir cwd fs' p then (None, fs')
                  else (Some (exn_of_errno e), fs')
              end
          end
      end
  | inl e =>
      if path_is_dir cwd fs p then (None, fs) else (Some (exn_of_errno e), fs)
  end.

Definition mkdir_p (cwd : Loc) (fs : FS) (p : PosixPath) : option Exn * FS :=
  mkdir_parents (length (parts p)) cwd fs p.

(** [p.read_text()] *)
Definition read_text (cwd : Loc) (fs : FS) (p : PosixPath) : Exn + string :=
  match stat cwd fs p with
  | inl e => inl (exn_of_errno e)
  | inr Dir => inl IsADirectoryError
  | inr (File t) => inr t
  end.

(** ** The world, the event log and the monad of the embedding *)

Record World := MkWorld {
  w_cwd : Loc;                      (* [os.getcwd()] *)
  w_fs : FS;
  w_environ : gmap string string;   (* [os.environ] *)
  w_loop : bool;                    (* an asyncio event loop runs in this thread *)
  CSV_FILE_PATH : string;           (* module globals of [main.py] *)
  USER_PROMPT : string
}.

Definition with_fs (fs : FS) (w : World) : World :=
  {| w_cwd := w_cwd w; w_fs := fs; w_environ := w_environ w; w_loop := w_loop w;
     CSV_FILE_PATH := CSV_FILE_PATH w; USER_PROMPT := USER_PROMPT w |}.

Definition with_loop (b : bool) (w : World) : World :=
  {| w_cwd := w_cwd w; w_fs := w_fs w; w_environ := w_environ w; w_loop := b;
     CSV_FILE_PATH := CSV_FILE_PATH w; USER_PROMPT := USER_PROMPT w |}.

Definition with_globals (csv prompt : string) (w : World) : World :=
  {| w_cwd := w_cwd w; w_fs := w_fs w; w_environ := w_environ w; w_loop := w_loop w;
     CSV_FILE_PATH := csv; USER_PROMPT := prompt |}.

(** Messages of the stream, as far as the code inspects them. *)
Record Block := MkBlock {
  block_text : option string        (* [block.text], when the block has one *)
}.

Inductive Content :=
| ContentList (blocks : list Block)
| ContentStr (s : string)
| ContentOther.

Record StreamItem := MkItem {
  is_Message : bool;                (* [isinstance(message, Message)] *)
  content : option Content          (* [message.content], when it has one *)
}.

Record ClaudeCodeOptions := MkOptions {
  system_prompt : string;
  allowed_tools : list string;
  permission_mode : string;
  max_turns : nat
}.

(** One entry per call that the code makes to the outside. *)
Inductive Event :=
| EvPrint (text : string)                                (* [print(text)] *)
| EvTraceback (e : Exn)                                  (* [traceback.print_exc()] *)
| EvGetenv (name : string)                               (* [os.environ.get(name)] *)
| EvMkdir (p : PosixPath)                                (* [p.mkdir(parents=True, exist_ok=True)] *)
| EvQuery (prompt : string) (options : ClaudeCodeOptions) (* [query(prompt=, options=)] *)
| EvYield (m : StreamItem)                               (* the stream produced [m] *)
| EvStreamEnd                                            (* the stream is exhausted *)
| EvStreamRaise (e : Exn)                                (* the stream raised *)
| EvCallback (c : Content)                               (* [callback(c)] *)
| EvExists (p : PosixPath)                               (* [p.exists()] *)
| EvReadText (p : PosixPath).                            (* [p.read_text()] *)

Inductive Result (T : Type) :=
| Returned (v : T)
| Raised (e : Exn)
| Pending.                          (* out of fuel: the stream has not ended *)

Arguments Returned {T} v.
Arguments Raised {T} e.
Arguments Pending {T}.

Record Run (T : Type) := MkRun {
  result : Result T;
  final : World;
  events : list Event
}.

Arguments MkRun {T} result final events.
Arguments result {T} r.
Arguments final {T} r.
Arguments events {T} r.

Definition M (T : Type) : Type := World -> Run T.

Definition ret {T} (v : T) : M T := fun w => MkRun (Returned v) w [].

Definition raise {T} (e : Exn) : M T := fun w => MkRun (Raised e) w [].

Definition pending {T} : M T := fun w => MkRun Pending w [].

Definition bind {T U} (m : M T) (k : T -> M U) : M U := fun w =>
  let r := m w in
  match result r with
  | Returned v =>
      let r' := k v (final r) in
      MkRun (result r') (final r') (events r ++ events r')%list
  | Raised e => MkRun (Raised e) (final r) (events r)
  | Pending => MkRun Pending (final r) (events r)
  end.

Declare Scope prog_scope.
Delimit Scope prog_scope with prog.
Notation "x <- m ;; k" := (bind m (fun x => k))
  (at level 100, m at next level, k at level 200, right associativity) : prog_scope.
Notation "m ;; k" := (bind m (fun _ => k))
  (at level 100, k at level 200, right associativity) : prog_scope.
Local Open Scope prog_scope.

(** [try: m except Exception as e: handler e] *)
Definition try_except {T} (m : M T) (handler : Exn -> M T) : M T := fun w =>
  let r := m w in
  match result r with
  | Raised e =>
      if is_exception e then
        let r' := handler e (final r) in
        MkRun (result r') (final r') (events r ++ events r')%list
      else r
  | _ => r
  end.

Definition emit (ev : Event) : M unit := fun w => MkRun (Returned tt) w [ev].

Definition print (text : string) : M unit := emit (EvPrint text).

Definition when (b : bool) (m : M unit) : M unit := if b then m else ret tt.

Fixpoint for_each {T} (l : list T) (body : T -> M unit) : M unit :=
  match l with
  | [] => ret tt
  | x :: rest => (body x ;; for_each rest body)
  end.

(** [os.environ.get(name)] *)
Definition environ_get (name : string) : M (option string) := fun w =>
  MkRun (Returned (w_environ w !! name)) w [EvGetenv name].

(** [p.mkdir(parents=True, exist_ok=True)] *)
Definition path_mkdir (p : PosixPath) : M unit := fun w =>
  let '(err, fs') := mkdir_p (w_cwd w) (w_fs w) p in
  MkRun (match err with None => Returned tt | Some e => Raised e end)
        (with_fs fs' w) [EvMkdir p].

(** [str(p.resolve())] *)
Definition path_resolve (p : PosixPath) : M string := fun w =>
  MkRun (Returned (str_of_loc (resolve (w_cwd w) p))) w [].

(** [p.exists()] *)
Definition path_exists_m (p : PosixPath) : M bool := fun w =>
  MkRun (Returned (path_exists (w_cwd w) (w_fs w) p)) w [EvExists p].

(** [p.read_text()] *)
Definition path_read_text (p : PosixPath) : M string := fun w =>
  MkRun (match read_text (w_cwd w) (w_fs w) p with
         | inr t => Returned t
         | inl e => Raised e
         end) w [EvReadText p].

(** [asyncio.run(coro)]: refused inside a running loop; otherwise the
    coroutine runs to its end in a loop of its own. *)
Definition asyncio_run {T} (coro : M T) : M T := fun w =>
  if w_loop w then
    MkRun (Raised (RuntimeError "asyncio.run() cannot be called from a running event loop"))
          w []
  else
    let r := coro (with_loop true w) in
    MkRun (result r) (with_loop false (final r)) (events r).

(** ** [csv_analysis_agent.py] *)

Definition DATA_ANALYSIS_SYSTEM_PROMPT : string := Str.unlines [
    "You are an expert data analyst specializing in CSV data analysis.";
    EmptyString;
    "When analyzing data, follow this iterative process:";
    EmptyString;
    "## PHASE 1: DATA EXPLORATION";
    "1. Read the CSV file to understand its structure";
    "2. Check the shape (rows, columns)";
    "3. Examine column names and data types";
    "4. Identify any missing or null values";
    "5. Look at sample rows to understand the data";
    EmptyString;
    "## PHASE 2: ANALYSIS";
    "Based on the user's specific question:";
    "1. Write Python code using pandas to analyze the data";
    "2. Execute the code and observe the results";
    "3. If the results are incomplete or raise new questions, run additional analysis";
    "4. Continue iterating until you have comprehensive insights";
    EmptyString;
    "## PHASE 3: SYNTHESIS";
    "1. Compile your findings into clear, actionable insights";
    "2. Answer the user's question directly with supporting data";
    "3. Include relevant statistics and patterns discovered";
    "4. Write your final analysis to the output file";
    EmptyString;
    "## GUIDELINES";
    "- Always use Python with pandas for data manipulation";
    "- Show your work by printing intermediate results";
    "- If you encounter errors, debug and retry";
    "- Be thorough but focused on the user's question";
    "- Support all conclusions with actual data from the CSV";
    "- Save your final analysis report as plain text"
  ].

(** The options object built by both entry functions. *)
Definition agent_options : ClaudeCodeOptions :=
  {| system_prompt := DATA_ANALYSIS_SYSTEM_PROMPT;
     allowed_tools := ["Bash"; "Read"; "Write"; "Glob"; "Grep"];
     permission_mode := "acceptEdits";
     max_turns := 30 |}.

(** The f-string [full_prompt] of [analyze_csv]. *)
Definition analyze_prompt (csv_abs_path user_prompt output_abs_path : string) : string :=
  Str.unlines [
    EmptyString;
    "Analyze the CSV file located at: " +:+ csv_abs_path;
    EmptyString;
    "User's Question/Request:";
    user_prompt;
    EmptyString;
    "Instructions:";
    "1. Start by reading and exploring the CSV file structure using Python with pandas";
    "2. Use the Bash tool to run Python code for analysis";
    "3. Iterate as needed to fully answer the question";
    "4. Save your final analysis and conclusions to: " +:+ output_abs_path;
    EmptyString;
    "Important: Use Python code execution via Bash to perform all data analysis.";
    "Example: python3 -c " +:+ Str.dquote +:+ "import pandas as pd; df = pd.read_csv('"
      +:+ csv_abs_path +:+ "'); print(df.head())" +:+ Str.dquote;
    EmptyString;
    "Begin your analysis now."
  ].

(** The f-string [full_prompt] of [analyze_csv_streaming]. *)
Definition streaming_prompt (csv_abs_path user_prompt output_abs_path : string) : string :=
  Str.unlines [
    EmptyString;
    "Analyze the CSV file located at: " +:+ csv_abs_path;
    EmptyString;
    "User's Question/Request:";
    user_prompt;
    EmptyString;
    "Save your final analysis to: " +:+ output_abs_path;
    EmptyString;
    "Use Python with pandas for all data analysis operations."
  ].

Definition NO_REPORT : string :=
  "Analysis completed but no report file was generated. Check agent output above.".

Definition NO_REPORT_STREAMING : string :=
  "Analysis complete. Check the output file.".

(** One step of the agent's stream: a message, the end, or an exception;
    each with the file system the agent leaves behind. *)
Inductive Step (A : Type) :=
| Yield (m : StreamItem) (a : A) (fs' : FS)
| Stop (fs' : FS)
| Throw (e : Exn) (fs' : FS).

Arguments Yield {A} m a fs'.
Arguments Stop {A} fs'.
Arguments Throw {A} e fs'.

(** What a caller's callback may do in the model: change files, and raise. *)
Abbreviation Callback := (Content -> World -> option Exn * FS).

Section Agent.

(** The external agent: [query] makes the stream object, [anext] advances
    it by one item. *)
Variable A : Type.
Variable query : string -> ClaudeCodeOptions -> A.
Variable anext : A -> World -> Step A.

(** [query(prompt=prompt, options=options)] *)
Definition call_query (prompt : string) (options : ClaudeCodeOptions) : M A :=
  fun w => MkRun (Returned (query prompt options)) w [EvQuery prompt options].

(** One turn of [async for]: [Some] for a message, [None] at the end. *)
Definition stream_next (it : A) : M (option (StreamItem * A)) := fun w =>
  match anext it w with
  | Yield m it' fs' => MkRun (Returned (Some (m, it'))) (with_fs fs' w) [EvYield m]
  | Stop fs' => MkRun (Returned None) (with_fs fs' w) [EvStreamEnd]
  | Throw e fs' => MkRun (Raised e) (with_fs fs' w) [EvStreamRaise e]
  end.

Definition call_callback (cb : Callback) (c : Content) : M unit := fun w =>
  let '(err, fs') := cb c w in
  MkRun (match err with None => Returned tt | Some e => Raised e end)
        (with_fs fs' w) [EvCallback c].

(** The printing of one message in verbose mode. *)
Definition show_content (c : Content) : M unit :=
  match c with
  | ContentList blocks =>
      for_each blocks (fun block =>
        match block_text block with
        | Some text => print ("[Agent] " +:+ Str.take 200 text +:+ "...")
        | None => ret tt
        end)
  | ContentStr text => print ("[Agent] " +:+ Str.take 200 text +:+ "...")
  | ContentOther => ret tt
  end.

(** The body of the loop of [analyze_csv] for one message. *)
Definition collect (verbose : bool) (message : StreamItem)
    (result_messages : list StreamItem) : M (list StreamItem) :=
  if is_Message message then
    (match content message with
     | Some c => when verbose (show_content c)
     | None => ret tt
     end ;;
     ret (result_messages ++ [message])%list)
  else ret result_messages.

(** [async for message in ...] of [analyze_csv]. *)
Fixpoint drain (fuel : nat) (verbose : bool) (it : A)
    (result_messages : list StreamItem) : M (list StreamItem) :=
  match fuel with
  | O => pending
  | S fuel' =>
      item <- stream_next it ;;
      match item with
      | None => ret result_messages
      | Some (message, it') =>
          result_messages' <- collect verbose message result_messages ;;
          drain fuel' verbose it' result_messages'
      end
  end.

Definition analyze_csv (fuel : nat)
    (csv_path user_prompt output_path : string) (verbose : bool) : M string :=
  path_mkdir (parent (Path output_path)) ;;
  csv_abs_path <- path_resolve (Path csv_path) ;;
  output_abs_path <- path_resolve (Path output_path) ;;
  let full_prompt := analyze_prompt csv_abs_path user_prompt output_abs_path in
  when verbose (
    print ("[Agent] Starting analysis of: " +:+ csv_path) ;;
    print ("[Agent] User prompt: " +:+ Str.take 100 user_prompt +:+ "...")) ;;
  let options := agent_options in
  it <- call_query full_prompt options ;;
  _ <- drain fuel verbose it [] ;;
  when verbose (print "[Agent] Analysis complete. Checking output file...") ;;
  let output_file := Path output_path in
  found <- path_exists_m output_file ;;
  if found then
    report_content <- path_read_text output_file ;;
    when verbose (print ("[Agent] Report saved to: " +:+ output_path)) ;;
    ret report_content
  else
    ret NO_REPORT.

(** The body of the loop of [analyze_csv_streaming] for one message. *)
Definition notify (callback : option Callback) (message : StreamItem) : M unit :=
  match callback with
  | Some cb =>
      if is_Message message then
        match content message with
        | Some c => call_callback cb c
        | None => ret tt
        end
      else ret tt
  | None => ret tt
  end.

(** [async for message in ...] of [analyze_csv_streaming]. *)
Fixpoint drain_streaming (fuel : nat) (callback : option Callback) (it : A) : M unit :=
  match fuel with
  | O => pending
  | S fuel' =>
      item <- stream_next it ;;
      match item with
      | None => ret tt
      | Some (message, it') =>
          notify callback message ;;
          drain_streaming fuel' callback it'
      end
  end.

Definition analyze_csv_streaming (fuel : nat)
    (csv_path user_prompt output_path : string) (callback : option Callback) : M string :=
  path_mkdir (parent (Path output_path)) ;;
  csv_abs_path <- path_resolve (Path csv_path) ;;
  output_abs_path <- path_resolve (Path output_path) ;;
  let full_prompt := streaming_prompt csv_abs_path user_prompt output_abs_path in
  let options := agent_options in
  it <- call_query full_prompt options ;;
  drain_streaming fuel callback it ;;
  let output_file := Path output_path in
  found <- path_exists_m output_file ;;
  if found then path_read_text output_file
  else ret NO_REPORT_STREAMING.

(** The synchronous wrapper. *)
Definition run_analysis (fuel : nat)
    (csv_path user_prompt output_path : string) (verbose : bool) : M string :=
  asyncio_run (analyze_csv fuel csv_path user_prompt output_path verbose).

(** ** [main.py] *)

Definition OUTPUT_PATH : string := "output/analysis_report.txt".

Definition DEFAULT_CSV_FILE_PATH : string := "data/sample_sales.csv".

Definition DEFAULT_USER_PROMPT : string := Str.unlines [
    EmptyString;
    "Analyze this sales data and provide:";
    "1. Summary statistics for all numeric columns";
    "2. Top 3 products by total revenue";
    "3. Daily revenue trends";
    "4. Any interesting patterns or insights you discover"
  ].

(** [str(e)], the text of an exception, is not modelled further. *)
Variable str_exn : Exn -> string.

Definition rule : string := Str.repeat "=" 60.

Definition validate_environment : M bool :=
  key <- environ_get "ANTHROPIC_API_KEY" ;;
  if match key with Some v => Str.truthy v | None => false end then ret true
  else
    print "ERROR: ANTHROPIC_API_KEY environment variable not set." ;;
    print "Please set it with: export ANTHROPIC_API_KEY='your-api-key'" ;;
    ret false.

Definition validate_csv_path (csv_path : string) : M bool :=
  let path := Path csv_path in
  found <- path_exists_m path ;;
  if found then ret true
  else
    print ("ERROR: CSV file not found at: " +:+ csv_path) ;;
    print "Please ensure the file exists or update CSV_FILE_PATH." ;;
    ret false.

(** Reading a module global. *)
Definition global (name : World -> string) : M string := fun w =>
  MkRun (Returned (name w)) w [].

Definition main_async (fuel : nat) : M nat :=
  print rule ;;
  print "CSV Analysis Agent" ;;
  print rule ;;
  env_ok <- validate_environment ;;
  if negb env_ok then ret 1 else
  csv_file_path <- global CSV_FILE_PATH ;;
  user_prompt <- global USER_PROMPT ;;
  csv_ok <- validate_csv_path csv_file_path ;;
  if negb csv_ok then ret 1 else
  print (Str.nl +:+ "CSV File: " +:+ csv_file_path) ;;
  print ("Output: " +:+ OUTPUT_PATH) ;;
  print (Str.nl +:+ "User Prompt:" +:+ Str.nl +:+ user_prompt) ;;
  print (Str.nl +:+ rule) ;;
  print "Starting analysis... (this may take a few minutes)" ;;
  print (rule +:+ Str.nl) ;;
  try_except
    (result <- analyze_csv fuel csv_file_path user_prompt OUTPUT_PATH true ;;
     print (Str.nl +:+ rule) ;;
     print "ANALYSIS COMPLETE" ;;
     print rule ;;
     print (Str.nl +:+ "Results saved to: " +:+ OUTPUT_PATH) ;;
     print (Str.nl +:+ "--- Analysis Report ---" +:+ Str.nl) ;;
     print result ;;
     ret 0)
    (fun e =>
       print (Str.nl +:+ "ERROR: Analysis failed with error: " +:+ str_exn e) ;;
       emit (EvTraceback e) ;;
       ret 1).

(** [main()] with [sys.argv = argv]. *)
Definition main (fuel : nat) (argv : list string) : M unit :=
  (fun w =>
     let csv := match argv with _ :: a :: _ => a | _ => CSV_FILE_PATH w end in
     let prompt := match argv with _ :: _ :: b :: _ => b | _ => USER_PROMPT w end in
     MkRun (Returned tt) (with_globals csv prompt w) []) ;;
  exit_code <- asyncio_run (main_async fuel) ;;
  raise (SystemExit exit_code).

End Agent.

Arguments call_query {A} query prompt options.
Arguments stream_next {A} anext it.
Arguments drain {A} anext fuel verbose it result_messages.
Arguments drain_streaming {A} anext fuel callback it.
Arguments analyze_csv {A} query anext fuel csv_path user_prompt output_path verbose.
Arguments analyze_csv_streaming {A} query anext fuel csv_path user_prompt output_path callback.
Arguments run_analysis {A} query anext fuel csv_path user_prompt output_path verbose.
Arguments main_async {A} query anext str_exn fuel.
Arguments main {A} query anext str_exn fuel argv.

(** ** Observations on event logs *)

Definition stream_end (ev : Event) : bool :=
  match ev with EvStreamEnd => true | _ => false end.

(** A turn of the stream: an item, its end, or its failure. *)
Definition stream_step (ev : Event) : bool :=
  match ev with
  | EvYield _ | EvStreamEnd | EvStreamRaise _ => true
  | _ => false
  end.

(** A look at a file: [exists()] or [read_text()]. *)
Definition file_access (ev : Event) : bool :=
  match ev with
  | EvExists _ | EvReadText _ => true
  | _ => false
  end.

(** What the two loops may log. *)
Definition loop_event (ev : Event) : bool :=
  match ev with
  | EvYield _ | EvStreamEnd | EvStreamRaise _ | EvPrint _ | EvCallback _ => true
  | _ => false
  end.

Definition is_print (ev : Event) : bool :=
  match ev with EvPrint _ => true | _ => false end.

(** The stream was consumed to completion. *)
Definition stream_completed (log : list Event) : bool := existsb stream_end log.

(** The calls of [query] in a log, with their arguments. *)
Fixpoint queries (log : list Event) : list (string * ClaudeCodeOptions) :=
  match log with
  | [] => []
  | EvQuery prompt options :: rest => (prompt, options) :: queries rest
  | _ :: rest => queries rest
  end.

(** [w'] differs from [w] in its file system at most. *)
Definition same_context (w w' : World) : Prop :=
  w_cwd w' = w_cwd w /\ w_environ w' = w_environ w /\ w_loop w' = w_loop w /\
  CSV_FILE_PATH w' = CSV_FILE_PATH w /\ USER_PROMPT w' = USER_PROMPT w.

(** [fs'] is [fs] with some directories added: nothing is removed or
    changed and no regular file appears. *)
Definition adds_dirs_only (fs fs' : FS) : Prop :=
  forall l : Loc, fs' !! l = fs !! l \/ (fs !! l = None /\ fs' !! l = Some Dir).

(** The file system that a step of the agent leaves. *)
Definition step_fs {A} (s : Step A) : FS :=
  match s with
  | Yield _ _ fs' => fs'
  | Stop fs' => fs'
  | Throw _ fs' => fs'
  end.

(** ** Notions used in the proofs *)

(** What a loop leaves: the context is kept, the log has loop events only,
    and the end of the stream is logged exactly when the loop returns, as
    its last event. *)
Definition loop_outcome {T} (w : World) (r : Run T) : Prop :=
  same_context w (final r) /\
  forallb loop_event (events r) = true /\
  match result r with
  | Returned _ =>
      exists pre,
        events r = (pre ++ [EvStreamEnd])%list /\ existsb stream_end pre = false
  | _ => existsb stream_end (events r) = false
  end.

(** A piece of a loop that does not end the stream. *)
Definition quiet {T} (w : World) (r : Run T) : Prop :=
  same_context w (final r) /\
  forallb loop_event (events r) = true /\
  existsb stream_end (events r) = false.

(** The log of [analyze_csv] up to and including the call of [query]. *)
Definition prologue_log (verbose : bool) (csv_path user_prompt output_path prompt : string)
  : list Event :=
  EvMkdir (parent (Path output_path))
  :: (if verbose
      then [EvPrint ("[Agent] Starting analysis of: " +:+ csv_path);
            EvPrint ("[Agent] User prompt: " +:+ Str.take 100 user_prompt +:+ "...")]
      else [])
  ++ [EvQuery prompt agent_options].

(** The part of [analyze_csv] after the loop, run in the world [w]. *)
Definition epilogue (verbose : bool) (output_path : string) (w : World) : Run string :=
  let output_file := Path output_path in
  let opening :=
    (if verbose then [EvPrint "[Agent] Analysis complete. Checking output file..."] else [])
    ++ [EvExists output_file] in
  if path_exists (w_cwd w) (w_fs w) output_file then
    match read_text (w_cwd w) (w_fs w) output_file with
    | inr report_content =>
        MkRun (Returned report_content) w
          (opening ++ EvReadText output_file
             :: (if verbose then [EvPrint ("[Agent] Report saved to: " +:+ output_path)]
                 else []))
    | inl e => MkRun (Raised e) w (opening ++ [EvReadText output_file])
    end
  else MkRun (Returned NO_REPORT) w (opening).

(** The part of [analyze_csv_streaming] after the loop. *)
Definition epilogue_streaming (output_path : string) (w : World) : Run string :=
  let output_file := Path output_path in
  if path_exists (w_cwd w) (w_fs w) output_file then
    MkRun (match read_text (w_cwd w) (w_fs w) output_file with
           | inr t => Returned t
           | inl e => Raised e
           end) w [EvExists output_file; EvReadText output_file]
  else MkRun (Returned NO_REPORT_STREAMING) w [EvExists output_file].

(** The absolute path that the prompt shows for [path]. *)
Definition abs_path (w : World) (path : string) : string :=
  str_of_loc (resolve (w_cwd w) (Path path)).

(** Every run of [m] changes the file system within [R]. *)
Definition within (R : FS -> FS -> Prop) {T} (m : M T) : Prop :=
  forall w, R (w_fs w) (w_fs (final (m w))).

(** No name of [l] is "..": [l] is a normalised location. *)
Definition no_dotdot (l : list string) : bool :=
  forallb (fun c => negb (String.eqb c "..")) l.

(** [r] with [l] logged before it. *)
Definition after {T} (l : list Event) (r : Run T) : Run T :=
  MkRun (result r) (final r) (l ++ events r).

(** ** Sample worlds and agents *)

Definition demo_fs : FS :=
  {[ ["home"] := Dir;
     ["home"; "u"] := Dir;
     ["home"; "u"; "data"] := Dir;
     ["home"; "u"; "data"; "sample_sales.csv"] := File "day,product,revenue" ]}.

Definition demo_world : World :=
  {| w_cwd := ["home"; "u"];
     w_fs := demo_fs;
     w_environ := {[ "ANTHROPIC_API_KEY" := "sk-demo" ]};
     w_loop := false;
     CSV_FILE_PATH := DEFAULT_CSV_FILE_PATH;
     USER_PROMPT := DEFAULT_USER_PROMPT |}.

Definition demo_report_loc : Loc := ["home"; "u"; "output"; "analysis_report.txt"].

(** An agent that greets, writes the report with its second message, and
    stops. *)
Definition writing_agent (turn : nat) (w : World) : Step nat :=
  match turn with
  | 0 => Yield (MkItem true (Some (ContentStr "Reading the file"))) 1 (w_fs w)
  | 1 => Yield (MkItem true (Some (ContentList [MkBlock (Some "Writing"); MkBlock None])))
               2 (<[ demo_report_loc := File "Top product: tea" ]> (w_fs w))
  | _ => Stop (w_fs w)
  end.

Definition start_writing (prompt : string) (options : ClaudeCodeOptions) : nat := 0.

(** An agent that ends its stream at once and touches nothing. *)
Definition silent_agent (it : unit) (w : World) : Step unit := Stop (w_fs w).

Definition start_silent (prompt : string) (options : ClaudeCodeOptions) : unit := tt.

Definition demo_str_exn (e : Exn) : string := "error".

Definition keyless_world : World :=
  {| w_cwd := ["home"; "u"];
     w_fs := demo_fs;
     w_environ := ∅;
     w_loop := true;
     CSV_FILE_PATH := DEFAULT_CSV_FILE_PATH;
     USER_PROMPT := DEFAULT_USER_PROMPT |}.

Definition demo_prompt : string :=
  analyze_prompt "/home/u/data/sample_sales.csv" "What sells best?"
    "/home/u/output/analysis_report.txt".

Definition demo_run : Run string :=
  analyze_csv start_writing writing_agent 5
    "data/sample_sales.csv" "What sells best?" "output/analysis_report.txt" true demo_world.

Definition demo_output_dir : Loc := ["home"; "u"; "output"].

Definition silent_run : Run string :=
  analyze_csv start_silent silent_agent 1
    "data/sample_sales.csv" "What sells best?" "output/analysis_report.txt" false demo_world.

Definition silent_streaming_run : Run string :=
  analyze_csv_streaming start_silent silent_agent 1
    "data/sample_sales.csv" "What sells best?" "output/analysis_report.txt" None demo_world.

(** ** The script part of [csv_analysis_agent.py] *)

(** The block under [if __name__ == "__main__":], with [sys.argv = argv]. *)
Definition agent_script {A} (query : string -> ClaudeCodeOptions -> A)
    (anext : A -> World -> Step A) (fuel : nat) (argv : list string) : M unit :=
  match argv with
  | _ :: csv_file :: prompt :: _ =>
      result <- run_analysis query anext fuel csv_file prompt
                  "output/analysis_report.txt" true ;;
      print (Str.nl +:+ Str.repeat "=" 60) ;;
      print "FINAL REPORT" ;;
      print (Str.repeat "=" 60) ;;
      print result
  | _ =>
      print "Usage: python csv_analysis_agent.py <csv_path> <prompt>" ;;
      print "Example: python csv_analysis_agent.py data/sales.csv 'What are the top products?'" ;;
      raise (SystemExit 1)
  end.

(** ** Further observations on event logs *)

(** The texts printed, in order. *)
Fixpoint printed (log : list Event) : list string :=
  match log with
  | [] => []
  | EvPrint text :: rest => text :: printed rest
  | _ :: rest => printed rest
  end.

(** The log without its prints. *)
Definition unprinted (log : list Event) : list Event :=
  List.filter (fun ev => negb (is_print ev)) log.

(** The arguments of the calls of the callback, in order. *)
Fixpoint callback_args (log : list Event) : list Content :=
  match log with
  | [] => []
  | EvCallback c :: rest => c :: callback_args rest
  | _ :: rest => callback_args rest
  end.

(** The contents of the items of the stream that are messages and have a
    content, in order. *)
Fixpoint message_contents (log : list Event) : list Content :=
  match log with
  | [] => []
  | EvYield m :: rest =>
      match is_Message m, content m with
      | true, Some c => c :: message_contents rest
      | _, _ => message_contents rest
      end
  | _ :: rest => message_contents rest
  end.

(** The exception with which the stream failed, if it did. *)
Fixpoint stream_failure (log : list Event) : option Exn :=
  match log with
  | [] => None
  | EvStreamRaise e :: _ => Some e
  | _ :: rest => stream_failure rest
  end.

(** The line that the loop of [analyze_csv] prints for a text. *)
Definition preview (text : string) : string :=
  "[Agent] " +:+ Str.take 200 text +:+ "...".

(** The texts that a content holds: its own, or those of its blocks. *)
Definition content_texts (c : Content) : list string :=
  match c with
  | ContentList blocks => omap block_text blocks
  | ContentStr text => [text]
  | ContentOther => []
  end.

(** The texts of the messages of the stream, in order. *)
Fixpoint message_texts (log : list Event) : list string :=
  match log with
  | [] => []
  | EvYield m :: rest =>
      match is_Message m, content m with
      | true, Some c => content_texts c ++ message_texts rest
      | _, _ => message_texts rest
      end
  | _ :: rest => message_texts rest
  end.

(** A callback that does nothing. *)
Definition idle_callback : Callback := fun c w => (None, w_fs w).

(** An agent that fails at its second turn. *)
Definition failing_agent (turn : nat) (w : World) : Step nat :=
  match turn with
  | 0 => Yield (MkItem true (Some (ContentStr "Reading the file"))) 1 (w_fs w)
  | _ => Throw (AgentError true "connection lost") (w_fs w)
  end.

(** A regular file sits where the directory of the report should be. *)
Definition blocked_world : World :=
  with_fs (<[ ["home"; "u"; "output"] := File "notes" ]> demo_fs) demo_world.

(** The directory of the report is there already. *)
Definition prepared_world : World :=
  with_fs (<[ ["home"; "u"; "output"] := Dir ]> demo_fs) demo_world.

(** The calls of the callback that a run of the loop should make. *)
Definition due_calls (callback : option Callback) (log : list Event) : list Content :=
  match callback with
  | Some _ => message_contents log
  | None => []
  end.

(** ** The log of [main_async], piece by piece *)

(** What [main_async] logs before it calls [analyze_csv]. *)
Definition main_intro (w : World) : list Event :=
  [EvPrint rule;
   EvPrint "CSV Analysis Agent";
   EvPrint rule;
   EvGetenv "ANTHROPIC_API_KEY";
   EvExists (Path (CSV_FILE_PATH w));
   EvPrint (Str.nl +:+ "CSV File: " +:+ CSV_FILE_PATH w);
   EvPrint ("Output: " +:+ OUTPUT_PATH);
   EvPrint (Str.nl +:+ "User Prompt:" +:+ Str.nl +:+ USER_PROMPT w);
   EvPrint (Str.nl +:+ rule);
   EvPrint "Starting analysis... (this may take a few minutes)";
   EvPrint (rule +:+ Str.nl)].

(** What it logs after [analyze_csv] has returned [report]. *)
Definition main_closing (report : string) : list Event :=
  [EvPrint (Str.nl +:+ rule);
   EvPrint "ANALYSIS COMPLETE";
   EvPrint rule;
   EvPrint (Str.nl +:+ "Results saved to: " +:+ OUTPUT_PATH);
   EvPrint (Str.nl +:+ "--- Analysis Report ---" +:+ Str.nl);
   EvPrint report].

(** What it logs when it has caught [e]. *)
Definition main_failure (str_exn : Exn -> string) (e : Exn) : list Event :=
  [EvPrint (Str.nl +:+ "ERROR: Analysis failed with error: " +:+ str_exn e);
   EvTraceback e].

(** The API key is set: present and not empty. *)
Definition api_key_set (w : World) : bool :=
  match w_environ w !! "ANTHROPIC_API_KEY" with
  | Some key => Str.truthy key
  | None => false
  end.

(** A world with a running event loop, as [main_async] needs it. *)
Definition async_world : World := with_loop true demo_world.

(** ** The directories that [mkdir] makes *)

Definition is_mkdir (ev : Event) : bool :=
  match ev with EvMkdir _ => true | _ => false end.

(** [p] and its first [n] parents: [p], [p.parent], [p.parent.parent], ... *)
Fixpoint lineage (n : nat) (p : PosixPath) : list PosixPath :=
  match n with
  | O => [p]
  | S n' => p :: lineage n' (parent p)
  end.

(** [p] and all its parents, down to the path without names. *)
Definition ancestry (p : PosixPath) : list PosixPath := lineage (length (parts p)) p.

(** [fs'] is [fs] with directories added, each at the place to which one of
    the paths [qs] leads; nothing else is added, changed or removed. *)
Definition made_along (cwd : Loc) (qs : list PosixPath) (fs fs' : FS) : Prop :=
  forall l : Loc,
    fs' !! l = fs !! l \/
    (fs !! l = None /\ fs' !! l = Some Dir /\
     exists q, In q qs /\ walk fs' (start_of cwd q) (parts q) = inr l).

(** ** [Path.resolve()] where the file system has symbolic links

    The embedding above works in a file system without symbolic links; there
    [Path.resolve()] is [resolve].  What follows models it where links exist:
    [os.path.realpath] walks the names of the path, asks [os.lstat] for each
    place reached and, where that is a symbolic link, goes on from the target
    of the link. *)

Inductive lnode :=
| LFile (text : string)
| LDir
| LLink (target : string).          (* a symbolic link and what [os.readlink] gives *)

Abbreviation LFS := (gmap (list string) lnode).

Definition link_target (n : lnode) : option string :=
  match n with
  | LLink target => Some target
  | _ => None
  end.

(** The symbolic links of a file system. *)
Definition links (fs : LFS) : gmap (list string) string := omap link_target fs.

(** Two file systems have the same symbolic links, with the same targets;
    their directories and regular files may differ. *)
Definition same_links (fs1 fs2 : LFS) : Prop :=
  forall (l : Loc) (target : string),
    fs1 !! l = Some (LLink target) <-> fs2 !! l = Some (LLink target).

(** The names of [names] resolved from the place [l].  A name that is no
    link, or that does not exist, is appended as it is; ".." drops the last
    name; a link is replaced by the resolution of its target, from the root
    when the target is absolute and from the directory of the link
    otherwise.  [depth] bounds the links that are being resolved at once. *)
Fixpoint realpath_from (depth : nat) (fs : LFS) : Loc -> list string -> option Loc :=
  fix go (l : Loc) (names : list string) : option Loc :=
    match names with
    | [] => Some l
    | c :: rest =>
        if String.eqb c ".." then go (removelast l) rest
        else
          match fs !! child l c with
          | Some (LLink target) =>
              match depth with
              | O => None
              | S depth' =>
                  match realpath_from depth' fs
                          (if Str.starts_with "/"%char target then [] else l)
                          (parts (Path target)) with
                  | Some l' => go l' rest
                  | None => None
                  end
              end
          | _ => go (child l c) rest
          end
    end.

(** [p.resolve()]: the absolute place, or [None] when the links form a loop,
    that is when a link is met while it is being resolved ([resolve()] then
    raises [RuntimeError] up to Python 3.12).  More links than the file
    system has can be under resolution at once only in that case. *)
Definition realpath (cwd : Loc) (fs : LFS) (p : PosixPath) : option Loc :=
  realpath_from (S (size (links fs))) fs (start_of cwd p) (parts p).

(** Lines 70 to 91 of [analyze_csv] where links exist: the prompt with the
    two resolved paths, when both resolve. *)
Definition built_prompt (cwd : Loc) (fs : LFS)
    (csv_path user_prompt output_path : string) : option string :=
  match realpath cwd fs (Path csv_path), realpath cwd fs (Path output_path) with
  | Some csv_abs, Some output_abs =>
      Some (analyze_prompt (str_of_loc csv_abs) user_prompt (str_of_loc output_abs))
  | _, _ => None
  end.

(** A file system without links, seen as one that could have some. *)
Definition unlinked (fs : FS) : LFS :=
  (fun n => match n with File text => LFile text | Dir => LDir end) <$> fs.

(** The home of the samples with its data directory moved away and linked. *)
Definition linked_fs : LFS :=
  {[ ["home"] := LDir;
     ["home"; "u"] := LDir;
     ["srv"] := LDir;
     ["srv"; "sales"] := LDir;
     ["srv"; "sales"; "sample_sales.csv"] := LFile "day,product,revenue";
     ["home"; "u"; "data"] := LLink "/srv/sales" ]}.

(** The same after a first call: the report directory and the report exist. *)
Definition linked_fs_later : LFS :=
  <[ ["home"; "u"; "output"; "analysis_report.txt"] := LFile "Top product: tea" ]>
    (<[ ["home"; "u"; "output"] := LDir ]> linked_fs).

(** The same with the report directory being a link to a directory of
    another volume, put there between two calls. *)
Definition relinked_fs : LFS :=
  <[ ["home"; "u"; "output"] := LLink "/mnt/reports" ]>
    (<[ ["mnt"; "reports"] := LDir ]> (<[ ["mnt"] := LDir ]> linked_fs)).

(** * Proofs *)

(** ** Paths and directories at work *)

Example Path_default :
  Path "output/analysis_report.txt" = MkPath false ["output"; "analysis_report.txt"].
Proof. reflexivity. Qed.

Example Path_slashes : Path "/a//b/./c/" = MkPath true ["a"; "b"; "c"].
Proof. reflexivity. Qed.

Example resolve_dotdot :
  str_of_loc (resolve ["home"; "u"] (Path "../data/./x.csv")) = "/home/data/x.csv".
Proof. reflexivity. Qed.

Example mkdir_p_creates :
  mkdir_p ["w"] {[ ["w"] := Dir ]} (Path "a/b")
  = (None, <[ ["w"; "a"; "b"] := Dir ]> (<[ ["w"; "a"] := Dir ]> {[ ["w"] := Dir ]})).
Proof. vm_compute. reflexivity. Qed.

(** Two characters of a text of three, of two, three and one byte. *)
Example take_characters :
  Str.take 2 (String "195" (String "169" (String "230" (String "151" (String "165"
                (String "120" EmptyString))))))
  = String "195" (String "169" (String "230" (String "151" (String "165" EmptyString)))).
Proof. reflexivity. Qed.

Example parent_of_name : parent (Path "report.txt") = MkPath false [].
Proof. reflexivity. Qed.

(** A regular file where the directory should be: [exist_ok] does not help. *)
Example mkdir_p_blocked :
  fst (mkdir_p ["w"] {[ ["w"] := Dir; ["w"; "output"] := File "x" ]} (Path "output"))
  = Some FileExistsError.
Proof. vm_compute. reflexivity. Qed.

Example mkdir_p_below_file :
  fst (mkdir_p ["w"] {[ ["w"] := Dir; ["w"; "output"] := File "x" ]} (Path "output/sub"))
  = Some NotADirectoryError.
Proof. vm_compute. reflexivity. Qed.

Example mkdir_p_existing :
  mkdir_p ["w"] {[ ["w"] := Dir; ["w"; "output"] := Dir ]} (Path "output")
  = (None, {[ ["w"] := Dir; ["w"; "output"] := Dir ]}).
Proof. vm_compute. reflexivity. Qed.

(** The kernel needs the directory before "..", normalisation does not. *)
Example exists_through_missing :
  path_exists ["w"] {[ ["w"] := Dir; ["w"; "b"] := File "x" ]} (Path "a/../b") = false /\
  path_exists ["w"] {[ ["w"] := Dir; ["w"; "b"] := File "x" ]} (Path "b") = true /\
  resolve ["w"] (Path "a/../b") = ["w"; "b"].
Proof. vm_compute. repeat split. Qed.

(** ** Sample runs *)

Example silent_run_log :
  events silent_run
  = [EvMkdir (Path "output");
     EvQuery (analyze_prompt "/home/u/data/sample_sales.csv" "What sells best?"
                "/home/u/output/analysis_report.txt") agent_options;
     EvStreamEnd;
     EvExists (Path "output/analysis_report.txt")].
Proof. vm_compute. reflexivity. Qed.

Example demo_run_log_tail :
  skipn 8 (events demo_run)
  = [EvStreamEnd;
     EvPrint "[Agent] Analysis complete. Checking output file...";
     EvExists (Path "output/analysis_report.txt");
     EvReadText (Path "output/analysis_report.txt");
     EvPrint "[Agent] Report saved to: output/analysis_report.txt"].
Proof. vm_compute. reflexivity. Qed.

(** Too little fuel: the stream has not ended, nothing is returned yet. *)
Example demo_run_pending :
  result (analyze_csv start_writing writing_agent 2
            "data/sample_sales.csv" "What sells best?" "output/analysis_report.txt"
            true demo_world)
  = Pending.
Proof. vm_compute. reflexivity. Qed.

(** A directory at the output path: [exists()] holds and [read_text()] raises. *)
Example directory_at_output_path :
  result (analyze_csv start_silent silent_agent 1
            "data/sample_sales.csv" "What sells best?" "data" false demo_world)
  = Raised IsADirectoryError.
Proof. vm_compute. reflexivity. Qed.

Example main_async_success :
  result (main_async start_writing writing_agent demo_str_exn 5 (with_loop true demo_world))
  = Returned 0.
Proof. vm_compute. reflexivity. Qed.

(** [main_async] turns an exception of the call into exit code 1. *)
Example main_async_failure :
  result (main_async start_silent silent_agent demo_str_exn 5
            (with_fs (<[ ["home"; "u"; "output"] := File "x" ]> demo_fs)
               (with_loop true demo_world)))
  = Returned 1.
Proof. vm_compute. reflexivity. Qed.

Example main_exits :
  result (main start_writing writing_agent demo_str_exn 5
            ["main.py"; "data/sample_sales.csv"; "What sells best?"] demo_world)
  = Raised (SystemExit 0).
Proof. vm_compute. reflexivity. Qed.

(** ** Basic facts *)

Lemma same_context_refl w : same_context w w.
Proof. repeat split. Qed.

Lemma same_context_with_fs fs w : same_context w (with_fs fs w).
Proof. repeat split. Qed.

Lemma same_context_trans w1 w2 w3 :
  same_context w1 w2 -> same_context w2 w3 -> same_context w1 w3.
Proof.
  unfold same_context. intros (? & ? & ? & ? & ?) (? & ? & ? & ? & ?).
  repeat split; congruence.
Qed.

Lemma adds_dirs_only_refl fs : adds_dirs_only fs fs.
Proof. intros l. left. reflexivity. Qed.

Lemma adds_dirs_only_trans fs1 fs2 fs3 :
  adds_dirs_only fs1 fs2 -> adds_dirs_only fs2 fs3 -> adds_dirs_only fs1 fs3.
Proof.
  intros H12 H23 l. destruct (H12 l) as [E12 | [N1 D2]], (H23 l) as [E23 | [N2 D3]].
  - left. congruence.
  - right. split; congruence.
  - right. split; congruence.
  - congruence.
Qed.

Lemma adds_dirs_only_insert (fs : FS) (l : Loc) :
  fs !! l = None -> adds_dirs_only fs (<[l := Dir]> fs).
Proof.
  intros Hnone l'. destruct (decide (l = l')) as [<- | Hne].
  - right. split; [exact Hnone | apply lookup_insert_eq].
  - left. apply lookup_insert_ne. exact Hne.
Qed.

(** Regular files are exactly those of before. *)
Lemma adds_dirs_only_files fs fs' l t :
  adds_dirs_only fs fs' -> (fs' !! l = Some (File t) <-> fs !! l = Some (File t)).
Proof.
  intros H. destruct (H l) as [E | [N D]].
  - rewrite E. tauto.
  - rewrite N, D. split; discriminate.
Qed.

Lemma os_mkdir_adds_dirs_only cwd fs p fs' :
  os_mkdir cwd fs p = inr fs' -> adds_dirs_only fs fs'.
Proof.
  unfold os_mkdir. destruct (rev (parts p)) as [| c front]; [discriminate |].
  destruct (walk fs (start_of cwd p) (rev front)) as [e | l]; [discriminate |].
  destruct (node_at fs l) as [[t |] |]; try discriminate.
  destruct (String.eqb c ".."); [discriminate |].
  destruct (fs !! child l c) eqn:Hl; [discriminate |].
  intros [= <-]. apply adds_dirs_only_insert. exact Hl.
Qed.

Lemma mkdir_parents_adds_dirs_only n cwd : forall fs p,
  adds_dirs_only fs (snd (mkdir_parents n cwd fs p)).
Proof.
  induction n as [| n IH]; intros fs p; simpl.
  - destruct (os_mkdir cwd fs p) as [e | fs'] eqn:Hmk.
    + destruct e; simpl; try destruct (path_is_dir cwd fs p);
        simpl; apply adds_dirs_only_refl.
    + simpl. eapply os_mkdir_adds_dirs_only. exact Hmk.
  - destruct (os_mkdir cwd fs p) as [e | fs'] eqn:Hmk.
    + destruct e; simpl; try (destruct (path_is_dir cwd fs p);
        simpl; apply adds_dirs_only_refl).
      specialize (IH fs (parent p)).
      destruct (mkdir_parents n cwd fs (parent p)) as [[e1 |] fs1]; simpl in *.
      * exact IH.
      * destruct (os_mkdir cwd fs1 p) as [e2 | fs2] eqn:Hmk2.
        -- destruct e2; simpl; try destruct (path_is_dir cwd fs1 p);
             simpl; exact IH.
        -- simpl. eapply adds_dirs_only_trans; [exact IH |].
           eapply os_mkdir_adds_dirs_only. exact Hmk2.
    + simpl. eapply os_mkdir_adds_dirs_only. exact Hmk.
Qed.

Lemma mkdir_p_adds_dirs_only cwd fs p : adds_dirs_only fs (snd (mkdir_p cwd fs p)).
Proof. apply mkdir_parents_adds_dirs_only. Qed.

(** ** The two loops *)

Lemma forallb_print_loop l : forallb is_print l = true -> forallb loop_event l = true.
Proof.
  induction l as [| ev l IH]; simpl; [reflexivity |].
  destruct ev; simpl; try discriminate. exact IH.
Qed.

Lemma forallb_print_no_end l : forallb is_print l = true -> existsb stream_end l = false.
Proof.
  induction l as [| ev l IH]; simpl; [reflexivity |].
  destruct ev; simpl; try discriminate. exact IH.
Qed.

Lemma show_content_run c w :
  exists l, show_content c w = MkRun (Returned tt) w l /\ forallb is_print l = true.
Proof.
  destruct c as [blocks | text |]; simpl.
  - induction blocks as [| b blocks (l & IH & Hl)]; simpl.
    + exists []. split; reflexivity.
    + unfold bind. destruct (block_text b) as [text |]; simpl; rewrite IH; simpl.
      * eexists. split; [reflexivity |]. simpl. exact Hl.
      * eexists. split; [reflexivity |]. exact Hl.
  - eexists. split; reflexivity.
  - exists []. split; reflexivity.
Qed.

Lemma collect_run verbose m msgs w :
  exists msgs' l,
    collect verbose m msgs w = MkRun (Returned msgs') w l /\ forallb is_print l = true.
Proof.
  unfold collect. destruct (is_Message m).
  - unfold bind. destruct (content m) as [c |].
    + destruct verbose; simpl.
      * destruct (show_content_run c w) as (l & -> & Hl). simpl.
        do 2 eexists. split; [reflexivity |]. rewrite app_nil_r. exact Hl.
      * do 2 eexists. split; reflexivity.
    + simpl. do 2 eexists. split; reflexivity.
  - do 2 eexists. split; reflexivity.
Qed.

Lemma loop_outcome_bind {T U} (m : M T) (k : T -> M U) (w : World) :
  quiet w (m w) ->
  (forall v w1, loop_outcome w1 (k v w1)) ->
  loop_outcome w (bind m k w).
Proof.
  intros (Hctx & Hall & Hend) Hk. unfold bind.
  destruct (result (m w)) as [v | e |];
    [| split; [exact Hctx | split; [exact Hall | exact Hend]] ..].
  destruct (Hk v (final (m w))) as (Hc & Hall' & Hres).
  unfold loop_outcome; simpl.
  split; [eapply same_context_trans; eassumption |].
  split; [rewrite forallb_app, Hall, Hall'; reflexivity |].
  destruct (result (k v (final (m w)))) as [v' | e |].
  - destruct Hres as (pre & -> & Hpre). exists (events (m w) ++ pre)%list. split.
    + apply app_assoc.
    + rewrite existsb_app, Hend, Hpre. reflexivity.
  - rewrite existsb_app, Hend, Hres. reflexivity.
  - rewrite existsb_app, Hend, Hres. reflexivity.
Qed.

Lemma loop_outcome_cons {T} (w w1 : World) (ev : Event) (r : Run T) :
  same_context w w1 ->
  loop_event ev = true -> stream_end ev = false ->
  loop_outcome w1 r ->
  loop_outcome w (MkRun (result r) (final r) (ev :: events r)).
Proof.
  intros Hctx Hev Hend (Hc & Hall & Hres). unfold loop_outcome; simpl.
  split; [eapply same_context_trans; eassumption |].
  split; [rewrite Hev, Hall; reflexivity |].
  destruct (result r) as [v | e |].
  - destruct Hres as (pre & -> & Hpre). exists (ev :: pre). split; [reflexivity |].
    simpl. rewrite Hend, Hpre. reflexivity.
  - rewrite Hend, Hres. reflexivity.
  - rewrite Hend, Hres. reflexivity.
Qed.

Lemma collect_quiet verbose m msgs w : quiet w (collect verbose m msgs w).
Proof.
  destruct (collect_run verbose m msgs w) as (msgs' & l & -> & Hl).
  split; [apply same_context_refl |]. simpl.
  split; [apply forallb_print_loop | apply forallb_print_no_end]; exact Hl.
Qed.

Lemma notify_quiet callback m w : quiet w (notify callback m w).
Proof.
  unfold notify. destruct callback as [cb |]; [| repeat split].
  destruct (is_Message m); [| repeat split].
  destruct (content m) as [c |]; [| repeat split].
  unfold call_callback. destruct (cb c w) as [err fs']. repeat split.
Qed.

Section Loops.

Variable A : Type.
Variable anext : A -> World -> Step A.

Lemma drain_outcome fuel verbose : forall it msgs w,
  loop_outcome w (drain anext fuel verbose it msgs w).
Proof.
  induction fuel as [| fuel IH]; intros it msgs w.
  - repeat split.
  - simpl. unfold bind at 1. unfold stream_next.
    destruct (anext it w) as [m it' fs' | fs' | e fs']; simpl.
    + apply (loop_outcome_cons w (with_fs fs' w) (EvYield m)); auto.
      * apply same_context_with_fs.
      * apply loop_outcome_bind; [apply collect_quiet | intros; apply IH].
    + split; [apply same_context_with_fs |]. split; [reflexivity |].
      exists []. split; reflexivity.
    + repeat split.
Qed.

Lemma drain_streaming_outcome fuel callback : forall it w,
  loop_outcome w (drain_streaming anext fuel callback it w).
Proof.
  induction fuel as [| fuel IH]; intros it w.
  - repeat split.
  - simpl. unfold bind at 1. unfold stream_next.
    destruct (anext it w) as [m it' fs' | fs' | e fs']; simpl.
    + apply (loop_outcome_cons w (with_fs fs' w) (EvYield m)); auto.
      * apply same_context_with_fs.
      * apply loop_outcome_bind; [apply notify_quiet | intros; apply IH].
    + split; [apply same_context_with_fs |]. split; [reflexivity |].
      exists []. split; reflexivity.
    + repeat split.
Qed.

End Loops.

(** ** The run of [analyze_csv], piece by piece *)

Section Runs.

Variable A : Type.
Variable query : string -> ClaudeCodeOptions -> A.
Variable anext : A -> World -> Step A.

Lemma analyze_csv_run fuel csv_path user_prompt output_path verbose w :
  analyze_csv query anext fuel csv_path user_prompt output_path verbose w =
  let made := mkdir_p (w_cwd w) (w_fs w) (parent (Path output_path)) in
  let w1 := with_fs (snd made) w in
  match fst made with
  | Some e => MkRun (Raised e) w1 [EvMkdir (parent (Path output_path))]
  | None =>
      let prompt :=
        analyze_prompt (abs_path w csv_path) user_prompt (abs_path w output_path) in
      let head := prologue_log verbose csv_path user_prompt output_path prompt in
      let loop := drain anext fuel verbose (query prompt agent_options) [] w1 in
      match result loop with
      | Returned _ =>
          let tail := epilogue verbose output_path (final loop) in
          MkRun (result tail) (final tail) (head ++ events loop ++ events tail)
      | Raised e => MkRun (Raised e) (final loop) (head ++ events loop)
      | Pending => MkRun Pending (final loop) (head ++ events loop)
      end
  end.
Proof.
  unfold analyze_csv, abs_path, prologue_log.
  unfold bind at 1. unfold path_mkdir.
  destruct (mkdir_p (w_cwd w) (w_fs w) (parent (Path output_path))) as [[e |] fs1];
    simpl; [reflexivity |].
  destruct verbose; simpl; unfold bind; simpl;
    match goal with |- context [drain ?a ?f ?v ?i ?m ?x] =>
      set (loop := drain a f v i m x) end;
    (destruct (result loop); simpl; [| reflexivity ..]);
    unfold epilogue; simpl;
    (destruct (path_exists _ _ _); simpl; [| reflexivity]);
    destruct (read_text _ _ _); reflexivity.
Qed.

Lemma analyze_csv_streaming_run fuel csv_path user_prompt output_path callback w :
  analyze_csv_streaming query anext fuel csv_path user_prompt output_path callback w =
  let made := mkdir_p (w_cwd w) (w_fs w) (parent (Path output_path)) in
  let w1 := with_fs (snd made) w in
  match fst made with
  | Some e => MkRun (Raised e) w1 [EvMkdir (parent (Path output_path))]
  | None =>
      let prompt :=
        streaming_prompt (abs_path w csv_path) user_prompt (abs_path w output_path) in
      let head := [EvMkdir (parent (Path output_path)); EvQuery prompt agent_options] in
      let loop := drain_streaming anext fuel callback (query prompt agent_options) w1 in
      match result loop with
      | Returned _ =>
          let tail := epilogue_streaming output_path (final loop) in
          MkRun (result tail) (final tail) (head ++ events loop ++ events tail)
      | Raised e => MkRun (Raised e) (final loop) (head ++ events loop)
      | Pending => MkRun Pending (final loop) (head ++ events loop)
      end
  end.
Proof.
  unfold analyze_csv_streaming, abs_path.
  unfold bind at 1. unfold path_mkdir.
  destruct (mkdir_p (w_cwd w) (w_fs w) (parent (Path output_path))) as [[e |] fs1];
    simpl; [reflexivity |].
  unfold bind; simpl.
  match goal with |- context [drain_streaming ?a ?f ?c ?i ?x] =>
    set (loop := drain_streaming a f c i x) end.
  destruct (result loop); simpl; [| reflexivity ..].
  unfold epilogue_streaming; simpl.
  destruct (path_exists _ _ _); simpl; [| reflexivity].
  destruct (read_text _ _ _); reflexivity.
Qed.

End Runs.

Lemma epilogue_final verbose output_path w : final (epilogue verbose output_path w) = w.
Proof.
  unfold epilogue. destruct (path_exists _ _ _); [| reflexivity].
  destruct (read_text _ _ _); reflexivity.
Qed.

Lemma epilogue_streaming_final output_path w :
  final (epilogue_streaming output_path w) = w.
Proof. unfold epilogue_streaming. destruct (path_exists _ _ _); reflexivity. Qed.

Lemma epilogue_log verbose output_path w :
  existsb stream_step (events (epilogue verbose output_path w)) = false /\
  queries (events (epilogue verbose output_path w)) = [].
Proof.
  unfold epilogue. destruct (path_exists _ _ _);
    [destruct (read_text _ _ _) |]; destruct verbose; split; reflexivity.
Qed.

Lemma epilogue_streaming_log output_path w :
  existsb stream_step (events (epilogue_streaming output_path w)) = false /\
  queries (events (epilogue_streaming output_path w)) = [].
Proof.
  unfold epilogue_streaming. destruct (path_exists _ _ _); split; reflexivity.
Qed.

Lemma prologue_log_facts verbose csv_path user_prompt output_path prompt :
  let head := prologue_log verbose csv_path user_prompt output_path prompt in
  existsb stream_end head = false /\
  forallb (fun ev => negb (file_access ev)) head = true /\
  queries head = [(prompt, agent_options)].
Proof. destruct verbose; repeat split. Qed.

Lemma loop_event_no_access l :
  forallb loop_event l = true -> forallb (fun ev => negb (file_access ev)) l = true.
Proof.
  induction l as [| ev l IH]; simpl; [reflexivity |].
  destruct ev; simpl; try discriminate; exact IH.
Qed.

Lemma loop_event_no_query l : forallb loop_event l = true -> queries l = [].
Proof.
  induction l as [| ev l IH]; simpl; [reflexivity |].
  destruct ev; simpl; try discriminate; exact IH.
Qed.

Lemma queries_app l1 l2 : queries (l1 ++ l2) = queries l1 ++ queries l2.
Proof.
  induction l1 as [| ev l1 IH]; simpl; [reflexivity |].
  destruct ev; simpl; rewrite IH; reflexivity.
Qed.

(** An event that [l1] cannot hold lies in [l2]. *)
Lemma split_in_second (P : Event -> bool) (l1 l2 pre post : list Event) (ev : Event) :
  forallb (fun e => negb (P e)) l1 = true ->
  l1 ++ l2 = pre ++ ev :: post ->
  P ev = true ->
  exists mid, pre = l1 ++ mid /\ l2 = mid ++ ev :: post.
Proof.
  revert pre. induction l1 as [| a l1 IH]; intros pre Hall Heq Hev.
  - exists pre. split; [reflexivity | exact Heq].
  - simpl in Hall. apply andb_prop in Hall as [Ha Hall].
    destruct pre as [| b pre]; simpl in Heq; injection Heq as -> Heq.
    + rewrite Hev in Ha. discriminate.
    + destruct (IH pre Hall Heq Hev) as (mid & -> & ->).
      exists mid. split; reflexivity.
Qed.

Section Facts.

Variable A : Type.
Variable query : string -> ClaudeCodeOptions -> A.
Variable anext : A -> World -> Step A.

(** Once the stream has ended, the result is that of the last part, run in
    the world in which the call ends. *)
Lemma analyze_csv_after_stream fuel csv_path user_prompt output_path verbose w :
  let run := analyze_csv query anext fuel csv_path user_prompt output_path verbose w in
  stream_completed (events run) = true ->
  result run = result (epilogue verbose output_path (final run)).
Proof.
  cbv zeta. rewrite analyze_csv_run. cbv zeta.
  destruct (fst (mkdir_p _ _ _)); [discriminate |].
  match goal with |- context [drain ?a ?f ?v ?i ?m ?x] =>
    destruct (drain_outcome A a f v i m x) as (_ & _ & Hres);
    set (loop := drain a f v i m x) in * end.
  destruct (prologue_log_facts verbose csv_path user_prompt output_path
    (analyze_prompt (abs_path w csv_path) user_prompt (abs_path w output_path)))
    as (Hhead & _ & _).
  unfold stream_completed.
  destruct (result loop); cbn [events result final].
  - intros _. rewrite epilogue_final. reflexivity.
  - rewrite existsb_app, Hhead, Hres. discriminate.
  - rewrite existsb_app, Hhead, Hres. discriminate.
Qed.

Lemma analyze_csv_streaming_after_stream fuel csv_path user_prompt output_path callback w :
  let run :=
    analyze_csv_streaming query anext fuel csv_path user_prompt output_path callback w in
  stream_completed (events run) = true ->
  result run = result (epilogue_streaming output_path (final run)).
Proof.
  cbv zeta. rewrite analyze_csv_streaming_run. cbv zeta.
  destruct (fst (mkdir_p _ _ _)); [discriminate |].
  match goal with |- context [drain_streaming ?a ?f ?c ?i ?x] =>
    destruct (drain_streaming_outcome A a f c i x) as (_ & _ & Hres);
    set (loop := drain_streaming a f c i x) in * end.
  unfold stream_completed.
  destruct (result loop); simpl.
  - intros _. rewrite epilogue_streaming_final. reflexivity.
  - rewrite Hres. discriminate.
  - rewrite Hres. discriminate.
Qed.

End Facts.

(** ** What the code itself does to the file system *)

Section Within.

Variable R : FS -> FS -> Prop.
Hypothesis R_refl : forall fs, R fs fs.
Hypothesis R_trans : forall fs1 fs2 fs3, R fs1 fs2 -> R fs2 fs3 -> R fs1 fs3.
Hypothesis R_dirs : forall fs fs', adds_dirs_only fs fs' -> R fs fs'.

Lemma within_ret {T} (v : T) : within R (ret v).
Proof. intros w. apply R_refl. Qed.

Lemma within_pending {T} : within R (@pending T).
Proof. intros w. apply R_refl. Qed.

Lemma within_bind {T U} (m : M T) (k : T -> M U) :
  within R m -> (forall v, within R (k v)) -> within R (bind m k).
Proof.
  intros Hm Hk w. unfold bind. specialize (Hm w).
  destruct (result (m w)) as [v | e |]; simpl; [| exact Hm ..].
  eapply R_trans; [exact Hm | apply Hk].
Qed.

Lemma within_emit ev : within R (emit ev).
Proof. intros w. apply R_refl. Qed.

Lemma within_when b m : within R m -> within R (when b m).
Proof. intros Hm. destruct b; [exact Hm | apply within_ret]. Qed.

Lemma within_for_each {T} (l : list T) body :
  (forall x, within R (body x)) -> within R (for_each l body).
Proof.
  intros Hbody. induction l as [| x l IH]; simpl.
  - apply within_ret.
  - apply within_bind; [apply Hbody | intros _; exact IH].
Qed.

Lemma within_path_mkdir p : within R (path_mkdir p).
Proof.
  intros w. unfold path_mkdir.
  pose proof (mkdir_p_adds_dirs_only (w_cwd w) (w_fs w) p) as H.
  destruct (mkdir_p (w_cwd w) (w_fs w) p) as [err fs']. simpl in *.
  apply R_dirs. exact H.
Qed.

Lemma within_path_resolve p : within R (path_resolve p).
Proof. intros w. apply R_refl. Qed.

Lemma within_path_exists_m p : within R (path_exists_m p).
Proof. intros w. apply R_refl. Qed.

Lemma within_path_read_text p : within R (path_read_text p).
Proof. intros w. apply R_refl. Qed.

Lemma within_show_content c : within R (show_content c).
Proof.
  destruct c as [blocks | text |]; simpl.
  - apply within_for_each. intros b. destruct (block_text b).
    + apply within_emit.
    + apply within_ret.
  - apply within_emit.
  - apply within_ret.
Qed.

Lemma within_collect verbose m msgs : within R (collect verbose m msgs).
Proof.
  unfold collect. destruct (is_Message m); [| apply within_ret].
  apply within_bind; [| intros; apply within_ret].
  destruct (content m); [| apply within_ret].
  apply within_when, within_show_content.
Qed.

Variable A : Type.
Variable query : string -> ClaudeCodeOptions -> A.
Variable anext : A -> World -> Step A.

(** The agent's own steps stay within [R]. *)
Hypothesis R_agent : forall it w, R (w_fs w) (step_fs (anext it w)).

Lemma within_call_query prompt options : within R (call_query query prompt options).
Proof. intros w. apply R_refl. Qed.

Lemma within_stream_next it : within R (stream_next anext it).
Proof.
  intros w. unfold stream_next. specialize (R_agent it w).
  destruct (anext it w); exact R_agent.
Qed.

Lemma within_drain fuel verbose : forall it msgs,
  within R (drain anext fuel verbose it msgs).
Proof.
  induction fuel as [| fuel IH]; intros it msgs; simpl.
  - apply within_pending.
  - apply within_bind; [apply within_stream_next |].
    intros [[m it'] |]; [| apply within_ret].
    apply within_bind; [apply within_collect | intros; apply IH].
Qed.

Lemma within_analyze_csv fuel csv_path user_prompt output_path verbose :
  within R (analyze_csv query anext fuel csv_path user_prompt output_path verbose).
Proof.
  unfold analyze_csv.
  apply within_bind; [apply within_path_mkdir | intros _].
  apply within_bind; [apply within_path_resolve | intros csv_abs_path].
  apply within_bind; [apply within_path_resolve | intros output_abs_path].
  apply within_bind.
  { apply within_when, within_bind; [apply within_emit | intros; apply within_emit]. }
  intros _.
  apply within_bind; [apply within_call_query | intros it].
  apply within_bind; [apply within_drain | intros _].
  apply within_bind; [apply within_when, within_emit | intros _].
  apply within_bind; [apply within_path_exists_m | intros [|]]; [| apply within_ret].
  apply within_bind; [apply within_path_read_text | intros report].
  apply within_bind; [apply within_when, within_emit | intros; apply within_ret].
Qed.

(** The caller's callback stays within [R]. *)
Variable callback : option Callback.
Hypothesis R_callback :
  forall cb c w, callback = Some cb -> R (w_fs w) (snd (cb c w)).

Lemma within_notify m : within R (notify callback m).
Proof.
  unfold notify. destruct callback as [cb |] eqn:Hcb; [| apply within_ret].
  destruct (is_Message m); [| apply within_ret].
  destruct (content m) as [c |]; [| apply within_ret].
  intros w. unfold call_callback.
  pose proof (R_callback cb c w eq_refl) as H.
  destruct (cb c w) as [err fs']. exact H.
Qed.

Lemma within_drain_streaming fuel : forall it,
  within R (drain_streaming anext fuel callback it).
Proof.
  induction fuel as [| fuel IH]; intros it; simpl.
  - apply within_pending.
  - apply within_bind; [apply within_stream_next |].
    intros [[m it'] |]; [| apply within_ret].
    apply within_bind; [apply within_notify | intros; apply IH].
Qed.

Lemma within_analyze_csv_streaming fuel csv_path user_prompt output_path :
  within R
    (analyze_csv_streaming query anext fuel csv_path user_prompt output_path callback).
Proof.
  unfold analyze_csv_streaming.
  apply within_bind; [apply within_path_mkdir | intros _].
  apply within_bind; [apply within_path_resolve | intros csv_abs_path].
  apply within_bind; [apply within_path_resolve | intros output_abs_path].
  apply within_bind; [apply within_call_query | intros it].
  apply within_bind; [apply within_drain_streaming | intros _].
  apply within_bind; [apply within_path_exists_m | intros [|]]; [| apply within_ret].
  apply within_path_read_text.
Qed.

End Within.

(** ** Path resolution *)

Lemma no_dotdot_removelast l : no_dotdot l = true -> no_dotdot (removelast l) = true.
Proof.
  unfold no_dotdot. induction l as [| c l IH]; [reflexivity |].
  simpl. intros [Hc Hl]%andb_prop. destruct l as [| c' l']; [reflexivity |].
  change (forallb (fun c0 => negb (String.eqb c0 "..")) (c :: removelast (c' :: l')) = true).
  simpl in *. rewrite Hc. exact (IH Hl).
Qed.

Lemma normalise_no_dotdot names : forall stack,
  no_dotdot stack = true -> no_dotdot (normalise stack names) = true.
Proof.
  induction names as [| c names IH]; intros stack Hs; simpl; [exact Hs |].
  destruct (String.eqb c "..") eqn:Hc.
  - apply IH, no_dotdot_removelast, Hs.
  - apply IH. unfold no_dotdot, child. rewrite forallb_app. simpl.
    rewrite Hc. unfold no_dotdot in Hs. rewrite Hs. reflexivity.
Qed.

Lemma normalise_plain names : forall stack,
  no_dotdot names = true -> normalise stack names = stack ++ names.
Proof.
  induction names as [| c names IH]; intros stack; simpl.
  - intros _. symmetry. apply app_nil_r.
  - intros [Hc Hn]%andb_prop. apply negb_true_iff in Hc. rewrite Hc.
    rewrite (IH _ Hn). unfold child. rewrite <- app_assoc. reflexivity.
Qed.

(** Resolving a resolved path gives it back. *)
Lemma resolve_resolved cwd p :
  no_dotdot cwd = true ->
  resolve cwd (MkPath true (resolve cwd p)) = resolve cwd p.
Proof.
  intros Hcwd. unfold resolve at 1. simpl. apply normalise_plain.
  unfold resolve. apply normalise_no_dotdot. destruct (anchored p); [reflexivity | exact Hcwd].
Qed.

(** ** More fuel does not change a run that has left the loop *)

Section Fuel.

Variable A : Type.
Variable query : string -> ClaudeCodeOptions -> A.
Variable anext : A -> World -> Step A.

Lemma drain_more_fuel fuel extra verbose : forall it msgs w,
  result (drain anext fuel verbose it msgs w) <> Pending ->
  drain anext (fuel + extra) verbose it msgs w = drain anext fuel verbose it msgs w.
Proof.
  induction fuel as [| fuel IH]; intros it msgs w; simpl.
  - intros H. contradiction H. reflexivity.
  - intros H. unfold bind, stream_next in *.
    destruct (anext it w) as [m it' fs' | fs' | e fs']; simpl in *; [| reflexivity ..].
    destruct (collect_run verbose m msgs (with_fs fs' w)) as (msgs' & l & Hc & _).
    rewrite Hc in *. simpl in *. rewrite IH by exact H. reflexivity.
Qed.

Lemma analyze_csv_more_fuel fuel extra csv_path user_prompt output_path verbose w :
  result (analyze_csv query anext fuel csv_path user_prompt output_path verbose w)
    <> Pending ->
  analyze_csv query anext (fuel + extra) csv_path user_prompt output_path verbose w
  = analyze_csv query anext fuel csv_path user_prompt output_path verbose w.
Proof.
  rewrite !analyze_csv_run. cbv zeta.
  destruct (fst (mkdir_p _ _ _)); [reflexivity |].
  intros H. rewrite drain_more_fuel; [reflexivity |].
  intros Hp. rewrite Hp in H. contradiction H. reflexivity.
Qed.

End Fuel.

(** ** Running [main_async] step by step *)

Lemma bind_after {T U} (m : M T) (k : T -> M U) (w w1 : World) (v : T) (l : list Event) :
  m w = MkRun (Returned v) w1 l -> bind m k w = after l (k v w1).
Proof. intros H. unfold bind, after. rewrite H. reflexivity. Qed.

Ltac run_step := erewrite bind_after by reflexivity; cbv beta.
Ltac run_with H := erewrite bind_after by (apply H); cbv beta.

Lemma validate_environment_missing (w : World) :
  w_environ w !! "ANTHROPIC_API_KEY" = None \/
  w_environ w !! "ANTHROPIC_API_KEY" = Some EmptyString ->
  validate_environment w
  = MkRun (Returned false) w
      [EvGetenv "ANTHROPIC_API_KEY";
       EvPrint "ERROR: ANTHROPIC_API_KEY environment variable not set.";
       EvPrint "Please set it with: export ANTHROPIC_API_KEY='your-api-key'"].
Proof.
  intros Hkey. unfold validate_environment, environ_get, bind.
  cbn [result final events]. destruct Hkey as [Hkey | Hkey]; rewrite Hkey; reflexivity.
Qed.

Lemma validate_environment_set (w : World) (key : string) :
  w_environ w !! "ANTHROPIC_API_KEY" = Some key ->
  key <> EmptyString ->
  validate_environment w = MkRun (Returned true) w [EvGetenv "ANTHROPIC_API_KEY"].
Proof.
  intros Hkey Hne. unfold validate_environment, environ_get, bind.
  cbn [result final events]. rewrite Hkey.
  destruct key as [| c key]; [congruence | reflexivity].
Qed.

Lemma validate_csv_path_missing (csv_path : string) (w : World) :
  path_exists (w_cwd w) (w_fs w) (Path csv_path) = false ->
  validate_csv_path csv_path w
  = MkRun (Returned false) w
      [EvExists (Path csv_path);
       EvPrint ("ERROR: CSV file not found at: " +:+ csv_path);
       EvPrint "Please ensure the file exists or update CSV_FILE_PATH."].
Proof.
  intros Hcsv. unfold validate_csv_path, path_exists_m, bind.
  cbn [result final events]. rewrite Hcsv. reflexivity.
Qed.

(** ** The calls of [query] *)

Section Logs.

Variable A : Type.
Variable query : string -> ClaudeCodeOptions -> A.
Variable anext : A -> World -> Step A.

(** The calls of [query] that a run of [analyze_csv] makes. *)
Lemma analyze_csv_queries fuel csv_path user_prompt output_path verbose w :
  queries (events (analyze_csv query anext fuel csv_path user_prompt output_path verbose w))
  = match fst (mkdir_p (w_cwd w) (w_fs w) (parent (Path output_path))) with
    | None =>
        [(analyze_prompt (abs_path w csv_path) user_prompt (abs_path w output_path),
          agent_options)]
    | Some _ => []
    end.
Proof.
  rewrite analyze_csv_run. cbv zeta.
  destruct (fst (mkdir_p _ _ _)); [reflexivity |].
  match goal with |- context [drain ?a ?f ?v ?i ?m ?x] =>
    destruct (drain_outcome A a f v i m x) as (_ & Hall & _);
    set (loop := drain a f v i m x) in * end.
  destruct (prologue_log_facts verbose csv_path user_prompt output_path
    (analyze_prompt (abs_path w csv_path) user_prompt (abs_path w output_path)))
    as (_ & _ & Hhead).
  destruct (result loop); cbn [events];
    rewrite !queries_app, Hhead, (loop_event_no_query _ Hall);
    [destruct (epilogue_log verbose output_path (final loop)) as [_ ->] | ..];
    reflexivity.
Qed.

Lemma analyze_csv_keeps_context fuel csv_path user_prompt output_path verbose w :
  same_context w
    (final (analyze_csv query anext fuel csv_path user_prompt output_path verbose w)).
Proof.
  rewrite analyze_csv_run. cbv zeta.
  destruct (fst (mkdir_p _ _ _)); [apply same_context_with_fs |].
  match goal with |- context [drain ?a ?f ?v ?i ?m ?x] =>
    destruct (drain_outcome A a f v i m x) as (Hctx & _ & _);
    set (loop := drain a f v i m x) in * end.
  assert (same_context w (final loop)) as H.
  { eapply same_context_trans; [apply same_context_with_fs | exact Hctx]. }
  destruct (result loop); cbn [final]; [rewrite epilogue_final | ..]; exact H.
Qed.

End Logs.

(** ** Directories *)

Lemma walk_app fs names1 : forall l names2,
  walk fs l (names1 ++ names2)
  = match walk fs l names1 with
    | inl e => inl e
    | inr l' => walk fs l' names2
    end.
Proof.
  induction names1 as [| c names1 IH]; intros l names2; simpl; [reflexivity |].
  destruct (node_at fs l) as [[t |] |]; try reflexivity. apply IH.
Qed.

Lemma node_at_child fs l c : node_at fs (child l c) = fs !! child l c.
Proof. destruct l; reflexivity. Qed.

Lemma node_at_mono fs fs' l n :
  adds_dirs_only fs fs' -> node_at fs l = Some n -> node_at fs' l = Some n.
Proof.
  intros Hadd. destruct l as [| c l]; [trivial |]. simpl.
  destruct (Hadd (c :: l)) as [E | [N _]]; congruence.
Qed.

Lemma walk_mono fs fs' names : forall l l',
  adds_dirs_only fs fs' -> walk fs l names = inr l' -> walk fs' l names = inr l'.
Proof.
  induction names as [| c names IH]; intros l l' Hadd; simpl; [trivial |].
  destruct (node_at fs l) as [[t |] |] eqn:Hl; try discriminate.
  rewrite (node_at_mono fs fs' l Dir Hadd Hl). apply IH. exact Hadd.
Qed.

Lemma path_is_dir_mono cwd fs fs' p :
  adds_dirs_only fs fs' -> path_is_dir cwd fs p = true -> path_is_dir cwd fs' p = true.
Proof.
  intros Hadd. unfold path_is_dir, stat.
  destruct (walk fs (start_of cwd p) (parts p)) as [e | l] eqn:Hw; [discriminate |].
  rewrite (walk_mono _ _ _ _ _ Hadd Hw).
  destruct (node_at fs l) as [[t |] |] eqn:Hl; try discriminate.
  rewrite (node_at_mono _ _ _ _ Hadd Hl). trivial.
Qed.

Lemma parts_of_rev (p : PosixPath) c front :
  rev (parts p) = c :: front -> parts p = rev front ++ [c].
Proof. intros H. rewrite <- (rev_involutive (parts p)), H. reflexivity. Qed.

Lemma os_mkdir_makes_dir cwd fs p fs' :
  os_mkdir cwd fs p = inr fs' -> path_is_dir cwd fs' p = true.
Proof.
  intros Hmk. pose proof (os_mkdir_adds_dirs_only _ _ _ _ Hmk) as Hadd.
  revert Hmk. unfold os_mkdir, path_is_dir, stat.
  destruct (rev (parts p)) as [| c front] eqn:Hrev; [discriminate |].
  rewrite (parts_of_rev _ _ _ Hrev), walk_app.
  destruct (walk fs (start_of cwd p) (rev front)) as [e | l] eqn:Hw; [discriminate |].
  rewrite (walk_mono _ _ _ _ _ Hadd Hw).
  destruct (node_at fs l) as [[t |] |] eqn:Hl; try discriminate.
  destruct (String.eqb c "..") eqn:Hc; [discriminate |].
  destruct (fs !! child l c) eqn:Hchild; [discriminate |].
  intros [= <-]. simpl. rewrite (node_at_mono _ _ _ _ Hadd Hl), Hc.
  rewrite node_at_child, lookup_insert_eq. reflexivity.
Qed.

Lemma os_mkdir_existing cwd fs p n :
  stat cwd fs p = inr n -> os_mkdir cwd fs p = inl EEXIST.
Proof.
  unfold stat, os_mkdir.
  destruct (rev (parts p)) as [| c front] eqn:Hrev; [reflexivity |].
  rewrite (parts_of_rev _ _ _ Hrev), walk_app.
  destruct (walk fs (start_of cwd p) (rev front)) as [e | l]; [discriminate |].
  simpl. destruct (node_at fs l) as [[t |] |]; try discriminate.
  destruct (String.eqb c ".."); [reflexivity |].
  rewrite node_at_child. destruct (fs !! child l c); [reflexivity | discriminate].
Qed.

Lemma mkdir_parents_makes_dir n cwd fs p :
  fst (mkdir_parents n cwd fs p) = None ->
  path_is_dir cwd (snd (mkdir_parents n cwd fs p)) p = true.
Proof.
  destruct n as [| n]; simpl.
  - destruct (os_mkdir cwd fs p) as [e | fs'] eqn:Hmk.
    + destruct e; simpl; try discriminate;
        destruct (path_is_dir cwd fs p) eqn:Hd; simpl; congruence.
    + intros _. eapply os_mkdir_makes_dir. exact Hmk.
  - destruct (os_mkdir cwd fs p) as [e | fs'] eqn:Hmk.
    + destruct e; simpl;
        try (destruct (path_is_dir cwd fs p) eqn:Hd; simpl; congruence).
      destruct (mkdir_parents n cwd fs (parent p)) as [[e1 |] fs1]; simpl;
        [discriminate |].
      destruct (os_mkdir cwd fs1 p) as [e2 | fs2] eqn:Hmk2.
      * destruct e2; simpl; try discriminate;
          destruct (path_is_dir cwd fs1 p) eqn:Hd; simpl; congruence.
      * intros _. eapply os_mkdir_makes_dir. exact Hmk2.
    + intros _. eapply os_mkdir_makes_dir. exact Hmk.
Qed.

(** [mkdir(parents=True, exist_ok=True)] leaves a directory at the path
    whenever it does not raise. *)
Lemma mkdir_p_makes_dir cwd fs p :
  fst (mkdir_p cwd fs p) = None -> path_is_dir cwd (snd (mkdir_p cwd fs p)) p = true.
Proof. apply mkdir_parents_makes_dir. Qed.

(** On a directory that exists it changes nothing. *)
Lemma mkdir_p_existing_dir cwd fs p :
  path_is_dir cwd fs p = true -> mkdir_p cwd fs p = (None, fs).
Proof.
  intros Hd. unfold mkdir_p.
  assert (os_mkdir cwd fs p = inl EEXIST) as Hmk.
  { unfold path_is_dir in Hd. destruct (stat cwd fs p) as [e | n] eqn:Hs; [discriminate |].
    eapply os_mkdir_existing. exact Hs. }
  destruct (length (parts p)); simpl; rewrite Hmk, Hd; reflexivity.
Qed.

(** On a regular file it raises [FileExistsError] and changes nothing. *)
Lemma mkdir_p_on_file cwd fs p text :
  stat cwd fs p = inr (File text) -> mkdir_p cwd fs p = (Some FileExistsError, fs).
Proof.
  intros Hs. unfold mkdir_p.
  assert (path_is_dir cwd fs p = false) as Hd by (unfold path_is_dir; rewrite Hs; reflexivity).
  destruct (length (parts p)); simpl;
    rewrite (os_mkdir_existing _ _ _ _ Hs), Hd; reflexivity.
Qed.

(** ** Which directories [mkdir] makes *)

Lemma made_along_refl cwd qs fs : made_along cwd qs fs fs.
Proof. intros l. left. reflexivity. Qed.

Lemma made_along_adds cwd qs fs fs' : made_along cwd qs fs fs' -> adds_dirs_only fs fs'.
Proof. intros H l. destruct (H l) as [E | (N & D & _)]; [left | right]; auto. Qed.

Lemma made_along_more cwd qs qs' fs fs' :
  (forall q, In q qs -> In q qs') -> made_along cwd qs fs fs' -> made_along cwd qs' fs fs'.
Proof.
  intros Hincl H l. destruct (H l) as [E | (N & D & q & Hq & Hw)]; [left; exact E |].
  right. split; [exact N |]. split; [exact D |]. exists q. split; [apply Hincl, Hq | exact Hw].
Qed.

Lemma made_along_trans cwd qs fs1 fs2 fs3 :
  made_along cwd qs fs1 fs2 -> made_along cwd qs fs2 fs3 -> made_along cwd qs fs1 fs3.
Proof.
  intros H12 H23 l. pose proof (made_along_adds _ _ _ _ H23) as Hadd.
  destruct (H12 l) as [E12 | (N1 & D2 & q & Hq & Hw)], (H23 l) as [E23 | (N2 & D3 & q' & Hq' & Hw')].
  - left. congruence.
  - right. split; [congruence |]. split; [exact D3 |]. exists q'. split; assumption.
  - right. split; [exact N1 |]. split; [congruence |]. exists q. split; [exact Hq |].
    eapply walk_mono; eassumption.
  - congruence.
Qed.

Lemma os_mkdir_made_along cwd fs p fs' :
  os_mkdir cwd fs p = inr fs' -> made_along cwd [p] fs fs'.
Proof.
  intros Hmk. pose proof (os_mkdir_adds_dirs_only _ _ _ _ Hmk) as Hadd.
  revert Hmk. unfold os_mkdir.
  destruct (rev (parts p)) as [| c front] eqn:Hrev; [discriminate |].
  destruct (walk fs (start_of cwd p) (rev front)) as [e | l0] eqn:Hw; [discriminate |].
  destruct (node_at fs l0) as [[t |] |] eqn:Hl; try discriminate.
  destruct (String.eqb c "..") eqn:Hc; [discriminate |].
  destruct (fs !! child l0 c) eqn:Hchild; [discriminate |].
  intros [= <-] l. destruct (decide (child l0 c = l)) as [<- | Hne].
  - right. split; [exact Hchild |]. split; [apply lookup_insert_eq |].
    exists p. split; [left; reflexivity |].
    rewrite (parts_of_rev _ _ _ Hrev), walk_app, (walk_mono _ _ _ _ _ Hadd Hw).
    simpl. rewrite (node_at_mono _ _ _ _ Hadd Hl), Hc. reflexivity.
  - left. apply lookup_insert_ne. exact Hne.
Qed.

Lemma mkdir_parents_made_along n cwd : forall fs p,
  made_along cwd (lineage n p) fs (snd (mkdir_parents n cwd fs p)).
Proof.
  assert (forall k q, In q (lineage k q)) as Hhead by (intros [| k] q; left; reflexivity).
  induction n as [| n IH]; intros fs p; simpl.
  - destruct (os_mkdir cwd fs p) as [e | fs'] eqn:Hmk.
    + destruct e; simpl; try destruct (path_is_dir cwd fs p);
        simpl; apply made_along_refl.
    + simpl. eapply os_mkdir_made_along. exact Hmk.
  - assert (forall fs1 fs2, os_mkdir cwd fs1 p = inr fs2 ->
              made_along cwd (p :: lineage n (parent p)) fs1 fs2) as Hown.
    { intros fs1 fs2 H. eapply made_along_more; [| eapply os_mkdir_made_along; exact H].
      intros q [<- | []]. left. reflexivity. }
    destruct (os_mkdir cwd fs p) as [e | fs'] eqn:Hmk.
    + destruct e; simpl;
        try (destruct (path_is_dir cwd fs p); simpl; apply made_along_refl).
      specialize (IH fs (parent p)).
      assert (made_along cwd (p :: lineage n (parent p)) fs
                (snd (mkdir_parents n cwd fs (parent p)))) as IH'.
      { eapply made_along_more; [| exact IH]. intros q Hq. right. exact Hq. }
      destruct (mkdir_parents n cwd fs (parent p)) as [[e1 |] fs1]; simpl in *.
      * exact IH'.
      * destruct (os_mkdir cwd fs1 p) as [e2 | fs2] eqn:Hmk2.
        -- destruct e2; simpl; try destruct (path_is_dir cwd fs1 p);
             simpl; exact IH'.
        -- simpl. eapply made_along_trans; [exact IH' | apply Hown; exact Hmk2].
    + simpl. apply Hown. exact Hmk.
Qed.

(** [p.mkdir(parents=True, exist_ok=True)] adds directories at [p] and at
    parents of [p], and nothing else, whether it raises or not. *)
Lemma mkdir_p_made_along cwd fs p :
  made_along cwd (ancestry p) fs (snd (mkdir_p cwd fs p)).
Proof. apply mkdir_parents_made_along. Qed.

Lemma loop_event_no_mkdir l : forallb loop_event l = true -> existsb is_mkdir l = false.
Proof.
  induction l as [| ev l IH]; simpl; [reflexivity |].
  destruct ev; simpl; try discriminate; exact IH.
Qed.

(** ** The properties of the specification *)

(** C1. When the stream has been consumed to completion and the output path
    then holds a regular file, [analyze_csv] returns exactly the text of that
    file; and so it does with any larger amount of fuel. *)
Theorem analyze_csv_returns_report
    (A : Type) (query : string -> ClaudeCodeOptions -> A) (anext : A -> World -> Step A)
    (fuel : nat) (csv_path user_prompt output_path : string) (verbose : bool)
    (w : World) (text : string) :
  let run := analyze_csv query anext fuel csv_path user_prompt output_path verbose w in
  stream_completed (events run) = true ->
  stat (w_cwd (final run)) (w_fs (final run)) (Path output_path) = inr (File text) ->
  forall extra : nat,
    result (analyze_csv query anext (fuel + extra)
              csv_path user_prompt output_path verbose w)
    = Returned text.
Proof.
  intros run Hdone Hfile extra.
  assert (result run = Returned text) as Hres.
  { unfold run. rewrite analyze_csv_after_stream by exact Hdone.
    fold run. unfold epilogue, path_exists, read_text. rewrite Hfile. reflexivity. }
  rewrite analyze_csv_more_fuel; [exact Hres |].
  fold run. rewrite Hres. discriminate.
Qed.

Lemma analyze_csv_returns_report_demo :
  result (analyze_csv start_writing writing_agent (5 + 3)
            "data/sample_sales.csv" "What sells best?" "output/analysis_report.txt"
            true demo_world)
  = Returned "Top product: tea".
Proof.
  apply (analyze_csv_returns_report nat start_writing writing_agent 5
           "data/sample_sales.csv" "What sells best?" "output/analysis_report.txt"
           true demo_world "Top product: tea").
  - vm_compute. reflexivity.
  - vm_compute. reflexivity.
Defined.

(** C2. When the stream has been consumed to completion and nothing exists at
    the output path, [analyze_csv] returns the fixed fallback sentence, and
    it returns: it does not raise; and so it does with any larger amount of
    fuel. *)
Theorem analyze_csv_returns_fallback
    (A : Type) (query : string -> ClaudeCodeOptions -> A) (anext : A -> World -> Step A)
    (fuel : nat) (csv_path user_prompt output_path : string) (verbose : bool)
    (w : World) :
  let run := analyze_csv query anext fuel csv_path user_prompt output_path verbose w in
  stream_completed (events run) = true ->
  path_exists (w_cwd (final run)) (w_fs (final run)) (Path output_path) = false ->
  forall extra : nat,
    result (analyze_csv query anext (fuel + extra)
              csv_path user_prompt output_path verbose w)
    = Returned
        "Analysis completed but no report file was generated. Check agent output above.".
Proof.
  intros run Hdone Hnone extra.
  assert (result run = Returned NO_REPORT) as Hres.
  { unfold run. rewrite analyze_csv_after_stream by exact Hdone.
    fold run. unfold epilogue. rewrite Hnone. reflexivity. }
  rewrite analyze_csv_more_fuel; [exact Hres |].
  fold run. rewrite Hres. discriminate.
Qed.

Lemma analyze_csv_returns_fallback_demo :
  result (analyze_csv start_silent silent_agent (1 + 3)
            "data/sample_sales.csv" "What sells best?" "output/analysis_report.txt"
            false demo_world)
  = Returned NO_REPORT.
Proof.
  apply (analyze_csv_returns_fallback unit start_silent silent_agent 1
           "data/sample_sales.csv" "What sells best?" "output/analysis_report.txt"
           false demo_world).
  - vm_compute. reflexivity.
  - vm_compute. reflexivity.
Defined.

(** C3. With [ANTHROPIC_API_KEY] unset or empty, [main_async] returns exit
    code 1 and [query] is never called: the log holds no call of [query] and
    no turn of a stream, and the world is left as it was. *)
Theorem main_async_without_api_key
    (A : Type) (query : string -> ClaudeCodeOptions -> A) (anext : A -> World -> Step A)
    (str_exn : Exn -> string) (fuel : nat) (w : World) :
  w_environ w !! "ANTHROPIC_API_KEY" = None \/
  w_environ w !! "ANTHROPIC_API_KEY" = Some EmptyString ->
  let run := main_async query anext str_exn fuel w in
  result run = Returned 1 /\
  queries (events run) = [] /\
  existsb stream_step (events run) = false /\
  final run = w.
Proof.
  intros Hkey run. unfold run, main_async.
  do 3 run_step. run_with (validate_environment_missing w Hkey).
  repeat split.
Qed.

Lemma main_async_without_api_key_demo :
  result (main_async start_writing writing_agent demo_str_exn 5 keyless_world) = Returned 1.
Proof.
  apply (main_async_without_api_key nat start_writing writing_agent demo_str_exn 5
           keyless_world).
  left. vm_compute. reflexivity.
Defined.

(** C4. With the API key set and nothing at the configured CSV path,
    [main_async] returns exit code 1 and [query] is never called. *)
Theorem main_async_without_csv
    (A : Type) (query : string -> ClaudeCodeOptions -> A) (anext : A -> World -> Step A)
    (str_exn : Exn -> string) (fuel : nat) (w : World) (key : string) :
  w_environ w !! "ANTHROPIC_API_KEY" = Some key ->
  key <> EmptyString ->
  path_exists (w_cwd w) (w_fs w) (Path (CSV_FILE_PATH w)) = false ->
  let run := main_async query anext str_exn fuel w in
  result run = Returned 1 /\
  queries (events run) = [] /\
  existsb stream_step (events run) = false /\
  final run = w.
Proof.
  intros Hkey Hne Hcsv run. unfold run, main_async.
  do 3 run_step. run_with (validate_environment_set w key Hkey Hne).
  cbn [negb]. do 2 run_step. run_with (validate_csv_path_missing (CSV_FILE_PATH w) w Hcsv).
  repeat split.
Qed.

Lemma main_async_without_csv_demo :
  result (main_async start_writing writing_agent demo_str_exn 5 (with_fs ∅ demo_world))
  = Returned 1.
Proof.
  apply (main_async_without_csv nat start_writing writing_agent demo_str_exn 5
           (with_fs ∅ demo_world) "sk-demo").
  - vm_compute. reflexivity.
  - discriminate.
  - vm_compute. reflexivity.
Defined.

(** With an agent that writes nothing, both entry functions still change the
    file system: they make the directory of the report. *)
Lemma entry_functions_make_directory :
  w_fs demo_world !! demo_output_dir = None /\
  w_fs (final silent_run) !! demo_output_dir = Some Dir /\
  w_fs (final silent_streaming_run) !! demo_output_dir = Some Dir /\
  w_fs (final silent_run) <> w_fs demo_world /\
  w_fs (final silent_streaming_run) <> w_fs demo_world.
Proof.
  assert (w_fs demo_world !! demo_output_dir = None) as H0 by (vm_compute; reflexivity).
  assert (w_fs (final silent_run) !! demo_output_dir = Some Dir) as H1
    by (vm_compute; reflexivity).
  assert (w_fs (final silent_streaming_run) !! demo_output_dir = Some Dir) as H2
    by (vm_compute; reflexivity).
  repeat split; try assumption.
  - intros E. rewrite E, H0 in H1. discriminate.
  - intros E. rewrite E, H0 in H2. discriminate.
Qed.

(** C5, as the code has it.  What [analyze_csv] and [analyze_csv_streaming]
    themselves write is this and no more: their first call, made before
    [query] and before any turn of the stream, is the one [mkdir] of the
    parent of the output path; it adds directories at that parent and at
    parents of it, and adds, changes and removes nothing else.  From the file
    system it leaves, [made], on to the end of the call only the agent and the
    caller's callback write: every relation between file systems that is
    reflexive and transitive and that their steps respect holds between
    [made] and the file system in which the call ends. *)
Theorem own_writes_are_directories
    (R : FS -> FS -> Prop)
    (A : Type) (query : string -> ClaudeCodeOptions -> A) (anext : A -> World -> Step A)
    (callback : option Callback)
    (fuel : nat) (csv_path user_prompt output_path : string) (verbose : bool)
    (w : World) :
  (forall fs, R fs fs) ->
  (forall fs1 fs2 fs3, R fs1 fs2 -> R fs2 fs3 -> R fs1 fs3) ->
  (forall it w', R (w_fs w') (step_fs (anext it w'))) ->
  (forall cb c w', callback = Some cb -> R (w_fs w') (snd (cb c w'))) ->
  let dir := parent (Path output_path) in
  let made := snd (mkdir_p (w_cwd w) (w_fs w) dir) in
  let plain := analyze_csv query anext fuel csv_path user_prompt output_path verbose w in
  let streaming :=
    analyze_csv_streaming query anext fuel csv_path user_prompt output_path callback w in
  made_along (w_cwd w) (ancestry dir) (w_fs w) made /\
  (exists rest, events plain = EvMkdir dir :: rest /\ existsb is_mkdir rest = false) /\
  (exists rest, events streaming = EvMkdir dir :: rest /\ existsb is_mkdir rest = false) /\
  R made (w_fs (final plain)) /\
  R made (w_fs (final streaming)).
Proof.
  intros Hrefl Htrans Hagent Hcallback dir made plain streaming.
  split; [apply mkdir_p_made_along |].
  unfold plain, streaming. rewrite analyze_csv_run, analyze_csv_streaming_run. cbv zeta.
  fold dir. fold made.
  destruct (fst (mkdir_p (w_cwd w) (w_fs w) dir)).
  { cbn [events final with_fs w_fs].
    split; [exists []; split; reflexivity |]. split; [exists []; split; reflexivity |].
    split; apply Hrefl. }
  match goal with |- context [drain ?a ?f ?v ?i ?m ?x] =>
    pose proof (within_drain R Hrefl Htrans A a Hagent f v i m x) as Hplain;
    destruct (drain_outcome A a f v i m x) as (_ & Hall & _);
    set (loop := drain a f v i m x) in * end.
  match goal with |- context [drain_streaming ?a ?f ?c ?i ?x] =>
    pose proof (within_drain_streaming R Hrefl Htrans A a Hagent c Hcallback f i x)
      as Hstreaming;
    destruct (drain_streaming_outcome A a f c i x) as (_ & Halls & _);
    set (loops := drain_streaming a f c i x) in * end.
  cbn [w_fs with_fs] in Hplain, Hstreaming.
  apply loop_event_no_mkdir in Hall, Halls.
  split; [| split; [| split]].
  - unfold prologue_log.
    destruct (result loop); cbn [events]; eexists; (split; [reflexivity |]);
      rewrite ?existsb_app, Hall;
      try (unfold epilogue;
           destruct (path_exists _ _ _); [destruct (read_text _ _ _) |]);
      destruct verbose; reflexivity.
  - destruct (result loops); cbn [events]; eexists; (split; [reflexivity |]);
      simpl; rewrite ?existsb_app, Halls;
      try (unfold epilogue_streaming; destruct (path_exists _ _ _)); reflexivity.
  - destruct (result loop); cbn [final]; [rewrite epilogue_final | ..]; exact Hplain.
  - destruct (result loops); cbn [final]; [rewrite epilogue_streaming_final | ..];
      exact Hstreaming.
Qed.

(** The agent that writes nothing: the file system after the call is the one
    that the [mkdir] left. *)
Lemma own_writes_are_directories_demo :
  snd (mkdir_p (w_cwd demo_world) (w_fs demo_world) (Path "output"))
  = w_fs (final silent_run).
Proof.
  pose proof (own_writes_are_directories eq unit start_silent silent_agent None 1
                "data/sample_sales.csv" "What sells best?" "output/analysis_report.txt"
                false demo_world) as H.
  cbv zeta in H.
  destruct H as (_ & _ & _ & H & _).
  - reflexivity.
  - intros fs1 fs2 fs3. apply eq_trans.
  - intros it w'. reflexivity.
  - intros cb c w' Hcb. discriminate Hcb.
  - exact H.
Defined.

(** When agent and callback write nothing, the regular files after a call
    are those of before, with the same text. *)
Corollary silent_call_keeps_files
    (A : Type) (query : string -> ClaudeCodeOptions -> A) (anext : A -> World -> Step A)
    (fuel : nat) (csv_path user_prompt output_path : string) (verbose : bool)
    (w : World) (l : Loc) (text : string) :
  (forall it w', step_fs (anext it w') = w_fs w') ->
  let fs' :=
    w_fs (final (analyze_csv query anext fuel csv_path user_prompt output_path verbose w)) in
  fs' !! l = Some (File text) <-> w_fs w !! l = Some (File text).
Proof.
  intros Hsilent fs'. apply adds_dirs_only_files.
  apply (within_analyze_csv adds_dirs_only adds_dirs_only_refl adds_dirs_only_trans
           (fun _ _ H => H) A query anext).
  intros it w'. rewrite Hsilent. apply adds_dirs_only_refl.
Qed.

(** C6. Called where no event loop runs, the synchronous wrapper returns what
    awaiting [analyze_csv] on the same inputs returns inside a running loop;
    log and file system agree as well. *)
Theorem run_analysis_as_awaited
    (A : Type) (query : string -> ClaudeCodeOptions -> A) (anext : A -> World -> Step A)
    (fuel : nat) (csv_path user_prompt output_path : string) (verbose : bool)
    (w : World) :
  w_loop w = false ->
  let wrapped := run_analysis query anext fuel csv_path user_prompt output_path verbose w in
  let awaited :=
    analyze_csv query anext fuel csv_path user_prompt output_path verbose
      (with_loop true w) in
  result wrapped = result awaited /\
  events wrapped = events awaited /\
  final wrapped = with_loop false (final awaited).
Proof.
  intros Hloop. unfold run_analysis, asyncio_run. rewrite Hloop.
  cbn [result final events]. repeat split.
Qed.

Lemma run_analysis_as_awaited_demo :
  result (run_analysis start_writing writing_agent 5
            "data/sample_sales.csv" "What sells best?" "output/analysis_report.txt"
            true demo_world)
  = result (analyze_csv start_writing writing_agent 5
              "data/sample_sales.csv" "What sells best?" "output/analysis_report.txt"
              true (with_loop true demo_world)).
Proof.
  apply (run_analysis_as_awaited nat start_writing writing_agent 5
           "data/sample_sales.csv" "What sells best?" "output/analysis_report.txt"
           true demo_world).
  reflexivity.
Defined.

(** With no link in its way, [realpath] is the normalisation of the names. *)
Lemma realpath_from_unlinked (fs : FS) (depth : nat) (names : list string) :
  forall l, realpath_from depth (unlinked fs) l names = Some (normalise l names).
Proof.
  assert (forall l, match unlinked fs !! l with Some (LLink _) => False | _ => True end)
    as Hfree.
  { intros l. unfold unlinked. rewrite lookup_fmap.
    destruct (fs !! l) as [[text |] |]; exact I. }
  destruct depth; induction names as [| c rest IH]; intros l; simpl; try reflexivity;
    (destruct (String.eqb c ".."); [apply IH |]);
    specialize (Hfree (child l c));
    destruct (unlinked fs !! child l c) as [[text | | target] |];
    try contradiction; apply IH.
Qed.

Lemma realpath_unlinked (cwd : Loc) (fs : FS) (p : PosixPath) :
  realpath cwd (unlinked fs) p = Some (resolve cwd p).
Proof. apply realpath_from_unlinked. Qed.

Lemma same_links_sym fs1 fs2 : same_links fs1 fs2 -> same_links fs2 fs1.
Proof. intros H l t. symmetry. apply H. Qed.

Lemma same_links_trans fs1 fs2 fs3 :
  same_links fs1 fs2 -> same_links fs2 fs3 -> same_links fs1 fs3.
Proof. intros H12 H23 l t. rewrite (H12 l t). apply H23. Qed.

(** Making a directory or writing a regular file where no link is keeps the
    links. *)
Lemma same_links_insert (fs : LFS) (l : Loc) (n : lnode) :
  link_target n = None ->
  (fs !! l) ≫= link_target = None ->
  same_links fs (<[l := n]> fs).
Proof.
  intros Hn Hl l' t. destruct (decide (l = l')) as [<- | Hne].
  - rewrite lookup_insert_eq. split.
    + intros H. rewrite H in Hl. discriminate.
    + intros [= ->]. discriminate.
  - rewrite lookup_insert_ne by exact Hne. reflexivity.
Qed.

Lemma same_links_count fs1 fs2 : same_links fs1 fs2 -> links fs1 = links fs2.
Proof.
  intros H. apply map_eq. intros l. unfold links. rewrite !lookup_omap.
  destruct (fs1 !! l) as [[t1 | | t1] |] eqn:E1, (fs2 !! l) as [[t2 | | t2] |] eqn:E2;
    simpl; try reflexivity.
  all: try (apply H in E1; congruence).
  all: try (apply H in E2; congruence).
Qed.

(** [realpath] looks at the links only. *)
Lemma realpath_from_same_links (fs1 fs2 : LFS) :
  same_links fs1 fs2 ->
  forall depth names l,
    realpath_from depth fs1 l names = realpath_from depth fs2 l names.
Proof.
  intros H.
  assert (forall l,
            match fs1 !! l, fs2 !! l with
            | Some (LLink t1), Some (LLink t2) => t1 = t2
            | Some (LLink _), _ | _, Some (LLink _) => False
            | _, _ => True
            end) as Hsame.
  { intros l.
    destruct (fs1 !! l) as [[t1 | | t1] |] eqn:E1, (fs2 !! l) as [[t2 | | t2] |] eqn:E2;
      try exact I.
    all: try (apply H in E1; congruence).
    all: try (apply H in E2; congruence). }
  induction depth as [| depth IHd]; induction names as [| c rest IHn]; intros l; simpl;
    try reflexivity;
    (destruct (String.eqb c ".."); [apply IHn |]);
    specialize (Hsame (child l c));
    destruct (fs1 !! child l c) as [[t1 | | t1] |], (fs2 !! child l c) as [[t2 | | t2] |];
    try contradiction; try apply IHn; try reflexivity.
  subst t2. rewrite IHd.
  destruct (realpath_from depth fs2 _ _); [apply IHn | reflexivity].
Qed.

Lemma realpath_same_links (cwd : Loc) (fs1 fs2 : LFS) (p : PosixPath) :
  same_links fs1 fs2 -> realpath cwd fs1 p = realpath cwd fs2 p.
Proof.
  intros H. unfold realpath. rewrite (same_links_count _ _ H).
  apply realpath_from_same_links. exact H.
Qed.




(** C8. In every run of [analyze_csv], complete or not, a look at a file
    ([exists()] or [read_text()]) comes only after the stream has ended, and
    no turn of the stream follows it. *)
Theorem report_read_after_stream
    (A : Type) (query : string -> ClaudeCodeOptions -> A) (anext : A -> World -> Step A)
    (fuel : nat) (csv_path user_prompt output_path : string) (verbose : bool)
    (w : World) (pre post : list Event) (ev : Event) :
  events (analyze_csv query anext fuel csv_path user_prompt output_path verbose w)
    = pre ++ ev :: post ->
  file_access ev = true ->
  stream_completed pre = true /\ existsb stream_step post = false.
Proof.
  rewrite analyze_csv_run. cbv zeta.
  destruct (fst (mkdir_p _ _ _)).
  - cbn [events]. intros Heq Hev.
    destruct (split_in_second file_access [EvMkdir (parent (Path output_path))] []
                pre post ev) as (mid & _ & Hmid);
      [reflexivity | exact Heq | exact Hev | destruct mid; discriminate].
  - match goal with |- context [drain ?a ?f ?v ?i ?m ?x] =>
      destruct (drain_outcome A a f v i m x) as (_ & Hall & Hres);
      set (loop := drain a f v i m x) in * end.
    destruct (prologue_log_facts verbose csv_path user_prompt output_path
      (analyze_prompt (abs_path w csv_path) user_prompt (abs_path w output_path)))
      as (_ & Hhead & _).
    set (head := prologue_log _ _ _ _ _) in *.
    assert (forallb (fun e => negb (file_access e)) (head ++ events loop) = true)
      as Hquiet.
    { rewrite forallb_app, Hhead, (loop_event_no_access _ Hall). reflexivity. }
    destruct (result loop); cbn [events]; intros Heq Hev.
    + rewrite app_assoc in Heq.
      destruct (split_in_second file_access _ _ pre post ev Hquiet Heq Hev)
        as (mid & -> & Htail).
      split.
      * destruct Hres as (pre' & -> & _). unfold stream_completed.
        rewrite !existsb_app. simpl. rewrite !orb_true_r. reflexivity.
      * destruct (epilogue_log verbose output_path (final loop)) as [Hsteps _].
        rewrite Htail, existsb_app in Hsteps.
        apply orb_false_iff in Hsteps as [_ Hsteps]. simpl in Hsteps.
        apply orb_false_iff in Hsteps as [_ Hsteps]. exact Hsteps.
    + rewrite <- (app_nil_r (head ++ events loop)) in Heq.
      destruct (split_in_second file_access _ _ pre post ev Hquiet Heq Hev)
        as (mid & _ & Hmid).
      destruct mid; discriminate.
    + rewrite <- (app_nil_r (head ++ events loop)) in Heq.
      destruct (split_in_second file_access _ _ pre post ev Hquiet Heq Hev)
        as (mid & _ & Hmid).
      destruct mid; discriminate.
Qed.

Lemma report_read_after_stream_demo :
  stream_completed (firstn 10 (events demo_run)) = true /\
  existsb stream_step (skipn 11 (events demo_run)) = false.
Proof.
  apply (report_read_after_stream nat start_writing writing_agent 5
           "data/sample_sales.csv" "What sells best?" "output/analysis_report.txt"
           true demo_world
           (firstn 10 (events demo_run)) (skipn 11 (events demo_run))
           (EvExists (Path "output/analysis_report.txt"))).
  - vm_compute. reflexivity.
  - reflexivity.
Defined.


(** C10. With no file at the output path when the stream has ended, the two
    entry functions return different sentences on the same inputs. *)
Theorem fallbacks_differ
    (A : Type) (query : string -> ClaudeCodeOptions -> A) (anext : A -> World -> Step A)
    (fuel : nat) (csv_path user_prompt output_path : string) (verbose : bool)
    (callback : option Callback) (w : World) :
  let plain := analyze_csv query anext fuel csv_path user_prompt output_path verbose w in
  let streaming :=
    analyze_csv_streaming query anext fuel csv_path user_prompt output_path callback w in
  stream_completed (events plain) = true ->
  path_exists (w_cwd (final plain)) (w_fs (final plain)) (Path output_path) = false ->
  stream_completed (events streaming) = true ->
  path_exists (w_cwd (final streaming)) (w_fs (final streaming)) (Path output_path) = false ->
  result plain
  = Returned "Analysis completed but no report file was generated. Check agent output above." /\
  result streaming = Returned "Analysis complete. Check the output file." /\
  result plain <> result streaming.
Proof.
  intros plain streaming Hp Hpn Hs Hsn.
  assert (result plain = Returned NO_REPORT) as Ep.
  { unfold plain. rewrite analyze_csv_after_stream by exact Hp.
    fold plain. unfold epilogue. rewrite Hpn. reflexivity. }
  assert (result streaming = Returned NO_REPORT_STREAMING) as Es.
  { unfold streaming. rewrite analyze_csv_streaming_after_stream by exact Hs.
    fold streaming. unfold epilogue_streaming. rewrite Hsn. reflexivity. }
  split; [exact Ep |]. split; [exact Es |].
  rewrite Ep, Es. discriminate.
Qed.

Lemma fallbacks_differ_demo :
  result (analyze_csv start_silent silent_agent 1
            "data/sample_sales.csv" "What sells best?" "output/analysis_report.txt"
            false demo_world)
  <> result (analyze_csv_streaming start_silent silent_agent 1
               "data/sample_sales.csv" "What sells best?" "output/analysis_report.txt"
               None demo_world).
Proof.
  apply (fallbacks_differ unit start_silent silent_agent 1
           "data/sample_sales.csv" "What sells best?" "output/analysis_report.txt"
           false None demo_world); vm_compute; reflexivity.
Defined.

(** * Further properties of the code *)

(** ** The directory of the report *)

Lemma with_fs_same w : with_fs (w_fs w) w = w.
Proof. destruct w; reflexivity. Qed.

(** X1. When a regular file sits where the directory of the report should
    be, both entry functions raise [FileExistsError] at once: nothing is
    printed, [query] is not called and the world is left as it was. *)
Theorem blocked_directory_raises
    (A : Type) (query : string -> ClaudeCodeOptions -> A) (anext : A -> World -> Step A)
    (fuel : nat) (csv_path user_prompt output_path : string) (verbose : bool)
    (callback : option Callback) (w : World) (text : string) :
  stat (w_cwd w) (w_fs w) (parent (Path output_path)) = inr (File text) ->
  analyze_csv query anext fuel csv_path user_prompt output_path verbose w
  = MkRun (Raised FileExistsError) w [EvMkdir (parent (Path output_path))] /\
  analyze_csv_streaming query anext fuel csv_path user_prompt output_path callback w
  = MkRun (Raised FileExistsError) w [EvMkdir (parent (Path output_path))].
Proof.
  intros Hfile. rewrite analyze_csv_run, analyze_csv_streaming_run. cbv zeta.
  rewrite (mkdir_p_on_file _ _ _ _ Hfile). simpl. rewrite with_fs_same.
  split; reflexivity.
Qed.

Lemma blocked_directory_raises_demo :
  analyze_csv start_writing writing_agent 5
    "data/sample_sales.csv" "What sells best?" "output/analysis_report.txt" true
    blocked_world
  = MkRun (Raised FileExistsError) blocked_world [EvMkdir (Path "output")].
Proof.
  apply (blocked_directory_raises nat start_writing writing_agent 5
           "data/sample_sales.csv" "What sells best?" "output/analysis_report.txt"
           true None blocked_world "notes").
  vm_compute. reflexivity.
Defined.

(** X2. "Ensure output directory exists": in every run of [analyze_csv] that
    reaches the call of [query], the parent of the output path is a directory
    when the call ends, provided the agent does not remove it. *)
Theorem output_directory_ensured
    (A : Type) (query : string -> ClaudeCodeOptions -> A) (anext : A -> World -> Step A)
    (fuel : nat) (csv_path user_prompt output_path : string) (verbose : bool)
    (w : World) :
  let dir := parent (Path output_path) in
  let run := analyze_csv query anext fuel csv_path user_prompt output_path verbose w in
  (forall it w',
     path_is_dir (w_cwd w) (w_fs w') dir = true ->
     path_is_dir (w_cwd w) (step_fs (anext it w')) dir = true) ->
  queries (events run) <> [] ->
  path_is_dir (w_cwd (final run)) (w_fs (final run)) dir = true.
Proof.
  intros dir run Hagent Hcalled.
  assert (w_cwd (final run) = w_cwd w) as ->
    by apply (analyze_csv_keeps_context A query anext).
  revert Hcalled. unfold run. rewrite analyze_csv_run. cbv zeta.
  pose proof (mkdir_p_makes_dir (w_cwd w) (w_fs w) dir) as Hmade. fold dir.
  destruct (fst (mkdir_p (w_cwd w) (w_fs w) dir)); [intros H; contradiction H; reflexivity |].
  intros _. specialize (Hmade eq_refl).
  match goal with |- context [drain ?a ?f ?v ?i ?m ?x] =>
    pose proof (within_drain
      (fun fs fs' => path_is_dir (w_cwd w) fs dir = true ->
                     path_is_dir (w_cwd w) fs' dir = true)
      (fun _ H => H) (fun _ _ _ H12 H23 H => H23 (H12 H)) A a Hagent f v i m x) as Hloop;
    set (loop := drain a f v i m x) in * end.
  simpl in Hloop. specialize (Hloop Hmade).
  destruct (result loop); cbn [final]; [rewrite epilogue_final | ..]; exact Hloop.
Qed.

Lemma output_directory_ensured_demo :
  path_is_dir (w_cwd (final silent_run)) (w_fs (final silent_run)) (Path "output") = true.
Proof.
  apply (output_directory_ensured unit start_silent silent_agent 1
           "data/sample_sales.csv" "What sells best?" "output/analysis_report.txt"
           false demo_world).
  - intros it w' H. exact H.
  - vm_compute. discriminate.
Defined.

(** X3. When the directory of the report exists already and neither the agent
    nor the callback writes, a call of either entry function leaves the file
    system exactly as it was. *)
Theorem existing_directory_untouched
    (A : Type) (query : string -> ClaudeCodeOptions -> A) (anext : A -> World -> Step A)
    (fuel : nat) (csv_path user_prompt output_path : string) (verbose : bool)
    (callback : option Callback) (w : World) :
  path_is_dir (w_cwd w) (w_fs w) (parent (Path output_path)) = true ->
  (forall it w', step_fs (anext it w') = w_fs w') ->
  (forall cb c w', callback = Some cb -> snd (cb c w') = w_fs w') ->
  w_fs (final (analyze_csv query anext fuel csv_path user_prompt output_path verbose w))
  = w_fs w /\
  w_fs (final (analyze_csv_streaming query anext fuel
                 csv_path user_prompt output_path callback w))
  = w_fs w.
Proof.
  intros Hdir Hagent Hcallback.
  assert (forall it w', w_fs w' = step_fs (anext it w')) as Hagent'
    by (intros; symmetry; apply Hagent).
  assert (forall cb c w', callback = Some cb -> w_fs w' = snd (cb c w')) as Hcallback'
    by (intros; symmetry; eapply Hcallback; eassumption).
  rewrite analyze_csv_run, analyze_csv_streaming_run. cbv zeta.
  rewrite (mkdir_p_existing_dir _ _ _ Hdir). cbn [fst snd]. rewrite with_fs_same.
  split.
  - match goal with |- context [drain ?a ?f ?v ?i ?m ?x] =>
      pose proof (within_drain eq (fun _ => eq_refl) (fun fs1 fs2 fs3 => @eq_trans FS fs1 fs2 fs3)
                    A a Hagent' f v i m x) as Hloop;
      set (loop := drain a f v i m x) in * end.
    destruct (result loop); cbn [final]; [rewrite epilogue_final | ..];
      symmetry; exact Hloop.
  - match goal with |- context [drain_streaming ?a ?f ?c ?i ?x] =>
      pose proof (within_drain_streaming eq (fun _ => eq_refl)
                    (fun fs1 fs2 fs3 => @eq_trans FS fs1 fs2 fs3) A a Hagent' c Hcallback' f i x)
        as Hloop;
      set (loop := drain_streaming a f c i x) in * end.
    destruct (result loop); cbn [final]; [rewrite epilogue_streaming_final | ..];
      symmetry; exact Hloop.
Qed.

Lemma existing_directory_untouched_demo :
  w_fs (final (analyze_csv start_silent silent_agent 1
                 "data/sample_sales.csv" "What sells best?" "output/analysis_report.txt"
                 true prepared_world))
  = w_fs prepared_world.
Proof.
  apply (existing_directory_untouched unit start_silent silent_agent 1
           "data/sample_sales.csv" "What sells best?" "output/analysis_report.txt"
           true (Some idle_callback) prepared_world).
  - vm_compute. reflexivity.
  - intros it w'. reflexivity.
  - intros cb c w' [= <-]. reflexivity.
Defined.

(** ** Failures *)

Lemma stream_failure_app l1 l2 :
  stream_failure l1 = None -> stream_failure (l1 ++ l2) = stream_failure l2.
Proof.
  induction l1 as [| ev l1 IH]; simpl; [reflexivity |].
  destruct ev; try exact IH. discriminate.
Qed.

Lemma stream_failure_loop_free l :
  forallb (fun ev => negb (stream_step ev)) l = true -> stream_failure l = None.
Proof.
  induction l as [| ev l IH]; simpl; [reflexivity |].
  destruct ev; simpl; try discriminate; exact IH.
Qed.

Lemma prints_no_step l :
  forallb is_print l = true -> forallb (fun ev => negb (stream_step ev)) l = true.
Proof.
  induction l as [| ev l IH]; simpl; [reflexivity |].
  destruct ev; simpl; try discriminate; exact IH.
Qed.

(** The loop raises what the stream raised, and only that. *)
Lemma drain_failure (A : Type) (anext : A -> World -> Step A) fuel verbose :
  forall it msgs w,
    let r := drain anext fuel verbose it msgs w in
    match stream_failure (events r) with
    | Some e => result r = Raised e
    | None => forall e, result r <> Raised e
    end.
Proof.
  induction fuel as [| fuel IH]; intros it msgs w; cbv zeta.
  - simpl. discriminate.
  - simpl. unfold bind, stream_next.
    destruct (anext it w) as [m it' fs' | fs' | e fs']; simpl.
    + destruct (collect_run verbose m msgs (with_fs fs' w)) as (msgs' & l & Hc & Hl).
      rewrite Hc. simpl.
      rewrite stream_failure_app by (apply stream_failure_loop_free, prints_no_step, Hl).
      apply IH.
    + discriminate.
    + reflexivity.
Qed.

(** X4. An exception of the stream is not caught: when the stream raises [e],
    [analyze_csv] raises [e], and it looks at no file afterwards. *)
Theorem stream_exception_propagates
    (A : Type) (query : string -> ClaudeCodeOptions -> A) (anext : A -> World -> Step A)
    (fuel : nat) (csv_path user_prompt output_path : string) (verbose : bool)
    (w : World) (e : Exn) :
  let run := analyze_csv query anext fuel csv_path user_prompt output_path verbose w in
  stream_failure (events run) = Some e ->
  result run = Raised e /\ existsb file_access (events run) = false.
Proof.
  cbv zeta. rewrite analyze_csv_run. cbv zeta.
  destruct (fst (mkdir_p _ _ _)); [discriminate |].
  match goal with |- context [drain ?a ?f ?v ?i ?m ?x] =>
    pose proof (drain_failure A a f v i m x) as Hfail;
    destruct (drain_outcome A a f v i m x) as (_ & Hall & _);
    set (loop := drain a f v i m x) in * end.
  destruct (prologue_log_facts verbose csv_path user_prompt output_path
    (analyze_prompt (abs_path w csv_path) user_prompt (abs_path w output_path)))
    as (_ & Hquiet & _).
  set (head := prologue_log _ _ _ _ _) in *.
  assert (stream_failure head = None) as Hhead by (destruct verbose; reflexivity).
  assert (existsb file_access (head ++ events loop) = false) as Hnone.
  { apply not_true_is_false. intros [ev [Hin Hev]]%existsb_exists.
    apply in_app_or in Hin as [Hin | Hin].
    - rewrite forallb_forall in Hquiet. specialize (Hquiet ev Hin).
      rewrite Hev in Hquiet. discriminate.
    - pose proof (loop_event_no_access _ Hall) as Hloop.
      rewrite forallb_forall in Hloop. specialize (Hloop ev Hin).
      rewrite Hev in Hloop. discriminate. }
  cbv zeta in Hfail.
  destruct (result loop) eqn:Hres; cbn [events result].
  - rewrite stream_failure_app by exact Hhead.
    destruct (stream_failure (events loop)) as [e' |] eqn:Hl; [discriminate |].
    rewrite stream_failure_app by exact Hl.
    unfold epilogue. destruct (path_exists _ _ _); [destruct (read_text _ _ _) |];
      destruct verbose; discriminate.
  - rewrite stream_failure_app by exact Hhead. intros Hsome. rewrite Hsome in Hfail.
    injection Hfail as ->. split; [reflexivity | exact Hnone].
  - rewrite stream_failure_app by exact Hhead. intros Hsome. rewrite Hsome in Hfail.
    discriminate.
Qed.

Lemma stream_exception_propagates_demo :
  result (analyze_csv start_writing failing_agent 5
            "data/sample_sales.csv" "What sells best?" "output/analysis_report.txt"
            true demo_world)
  = Raised (AgentError true "connection lost").
Proof.
  apply (stream_exception_propagates nat start_writing failing_agent 5
           "data/sample_sales.csv" "What sells best?" "output/analysis_report.txt"
           true demo_world).
  vm_compute. reflexivity.
Defined.

(** X5. When the stream has ended and the output path is a directory,
    [exists()] holds and [read_text()] fails: both entry functions raise
    [IsADirectoryError] instead of returning a fallback sentence. *)
Theorem directory_at_output_raises
    (A : Type) (query : string -> ClaudeCodeOptions -> A) (anext : A -> World -> Step A)
    (fuel : nat) (csv_path user_prompt output_path : string) (verbose : bool)
    (callback : option Callback) (w : World) :
  let plain := analyze_csv query anext fuel csv_path user_prompt output_path verbose w in
  let streaming :=
    analyze_csv_streaming query anext fuel csv_path user_prompt output_path callback w in
  (stream_completed (events plain) = true ->
   stat (w_cwd (final plain)) (w_fs (final plain)) (Path output_path) = inr Dir ->
   result plain = Raised IsADirectoryError) /\
  (stream_completed (events streaming) = true ->
   stat (w_cwd (final streaming)) (w_fs (final streaming)) (Path output_path) = inr Dir ->
   result streaming = Raised IsADirectoryError).
Proof.
  intros plain streaming. split; intros Hdone Hdir.
  - unfold plain. rewrite analyze_csv_after_stream by exact Hdone.
    fold plain. unfold epilogue, path_exists, read_text. rewrite Hdir. reflexivity.
  - unfold streaming. rewrite analyze_csv_streaming_after_stream by exact Hdone.
    fold streaming. unfold epilogue_streaming, path_exists, read_text. rewrite Hdir.
    reflexivity.
Qed.

Lemma directory_at_output_raises_demo :
  result (analyze_csv start_silent silent_agent 1
            "data/sample_sales.csv" "What sells best?" "data" false demo_world)
  = Raised IsADirectoryError.
Proof.
  apply (directory_at_output_raises unit start_silent silent_agent 1
           "data/sample_sales.csv" "What sells best?" "data" false None demo_world).
  - vm_compute. reflexivity.
  - vm_compute. reflexivity.
Defined.

(** ** Verbosity *)

Lemma unprinted_app l1 l2 : unprinted (l1 ++ l2) = unprinted l1 ++ unprinted l2.
Proof. unfold unprinted. apply List.filter_app. Qed.

Lemma unprinted_prints l : forallb is_print l = true -> unprinted l = [].
Proof.
  induction l as [| ev l IH]; simpl; [reflexivity |].
  destruct ev; simpl; try discriminate; exact IH.
Qed.

Lemma printed_app l1 l2 : printed (l1 ++ l2) = printed l1 ++ printed l2.
Proof.
  induction l1 as [| ev l1 IH]; simpl; [reflexivity |].
  destruct ev; simpl; rewrite IH; reflexivity.
Qed.

Lemma printed_unprinted l : printed (unprinted l) = [].
Proof.
  induction l as [| ev l IH]; simpl; [reflexivity |].
  destruct ev; simpl; exact IH.
Qed.

(** What the body of the loop gives back does not depend on [verbose];
    without [verbose] it logs nothing. *)
Lemma collect_value verbose m msgs w :
  exists l,
    collect verbose m msgs w
    = MkRun (Returned (if is_Message m then msgs ++ [m] else msgs)) w l /\
    forallb is_print l = true /\
    (verbose = false -> l = []).
Proof.
  unfold collect. destruct (is_Message m).
  - unfold bind. destruct (content m) as [c |].
    + destruct verbose; simpl.
      * destruct (show_content_run c w) as (l & -> & Hl). simpl.
        eexists. split; [reflexivity |]. rewrite app_nil_r. split; [exact Hl | discriminate].
      * eexists. split; [reflexivity |]. split; reflexivity.
    + simpl. eexists. split; [reflexivity |]. split; reflexivity.
  - eexists. split; [reflexivity |]. split; reflexivity.
Qed.

Lemma drain_verbose (A : Type) (anext : A -> World -> Step A) fuel :
  forall it msgs w,
    let loud := drain anext fuel true it msgs w in
    let quiet_run := drain anext fuel false it msgs w in
    result loud = result quiet_run /\
    final loud = final quiet_run /\
    unprinted (events loud) = events quiet_run.
Proof.
  induction fuel as [| fuel IH]; intros it msgs w; cbv zeta.
  - repeat split.
  - simpl. unfold bind, stream_next.
    destruct (anext it w) as [m it' fs' | fs' | e fs']; simpl; [| repeat split ..].
    destruct (collect_value true m msgs (with_fs fs' w)) as (lt & -> & Hlt & _).
    destruct (collect_value false m msgs (with_fs fs' w)) as (lf & -> & _ & Hlf).
    rewrite (Hlf eq_refl). simpl.
    destruct (IH it' (if is_Message m then msgs ++ [m] else msgs) (with_fs fs' w))
      as (Hres & Hfin & Hev).
    split; [exact Hres |]. split; [exact Hfin |].
    change (unprinted (EvYield m :: lt ++ events (drain anext fuel true it'
              (if is_Message m then msgs ++ [m] else msgs) (with_fs fs' w))))
      with (EvYield m :: unprinted (lt ++ events (drain anext fuel true it'
              (if is_Message m then msgs ++ [m] else msgs) (with_fs fs' w)))).
    rewrite unprinted_app, (unprinted_prints _ Hlt), Hev. reflexivity.
Qed.

(** X6. [verbose] only adds prints: with and without it, [analyze_csv]
    gives the same result and the same final world and makes the same other
    calls in the same order; without it, it prints nothing at all. *)
Theorem verbose_only_prints
    (A : Type) (query : string -> ClaudeCodeOptions -> A) (anext : A -> World -> Step A)
    (fuel : nat) (csv_path user_prompt output_path : string) (w : World) :
  let loud := analyze_csv query anext fuel csv_path user_prompt output_path true w in
  let quiet_run := analyze_csv query anext fuel csv_path user_prompt output_path false w in
  result loud = result quiet_run /\
  final loud = final quiet_run /\
  unprinted (events loud) = events quiet_run /\
  printed (events quiet_run) = [].
Proof.
  cbv zeta.
  assert (forall T (r1 r2 : Run T),
            result r1 = result r2 -> final r1 = final r2 ->
            unprinted (events r1) = events r2 ->
            result r1 = result r2 /\ final r1 = final r2 /\
            unprinted (events r1) = events r2 /\ printed (events r2) = []) as Hpack.
  { intros T r1 r2 H1 H2 H3. repeat split; try assumption.
    rewrite <- H3. apply printed_unprinted. }
  apply Hpack; rewrite !analyze_csv_run; cbv zeta;
    (destruct (fst (mkdir_p _ _ _)); [reflexivity |]);
    match goal with |- context [drain ?a ?f true ?i ?m ?x] =>
      destruct (drain_verbose A a f i m x) as (Hres & Hfin & Hev);
      set (loud := drain a f true i m x) in *;
      set (quiet_run := drain a f false i m x) in * end;
    rewrite <- Hres, <- Hfin;
    destruct (result loud); cbn [result final events]; try reflexivity;
    unfold epilogue, prologue_log;
    try (destruct (path_exists _ _ _); [destruct (read_text _ _ _) |]);
    cbn [result final events]; try reflexivity;
    rewrite ?unprinted_app, Hev; reflexivity.
Qed.

(** ** The previews of the messages *)

Lemma len_append (a b : string) : Str.len (a +:+ b) = Str.len a + Str.len b.
Proof.
  induction a as [| c a IH]; simpl; [reflexivity |].
  destruct (Str.continues c); rewrite IH; reflexivity.
Qed.

Lemma len_take (s : string) : forall n : nat, Str.len (Str.take n s) <= n.
Proof.
  induction s as [| c s IH]; intros n; simpl; [lia |].
  destruct (Str.continues c) eqn:Hc; simpl; rewrite ?Hc; [apply IH |].
  destruct n as [| n]; simpl; rewrite ?Hc; [lia |]. specialize (IH n). lia.
Qed.

(** [s[:n]] is the beginning of [s]. *)
Lemma take_prefix (s : string) : forall n : nat, exists rest, s = Str.take n s +:+ rest.
Proof.
  induction s as [| c s IH]; intros n; simpl; [exists EmptyString; reflexivity |].
  destruct (Str.continues c).
  - destruct (IH n) as [rest Hrest]. exists rest.
    change (String c s = String c (Str.take n s +:+ rest)). f_equal. exact Hrest.
  - destruct n as [| n]; [exists (String c s); reflexivity |].
    destruct (IH n) as [rest Hrest]. exists rest.
    change (String c s = String c (Str.take n s +:+ rest)). f_equal. exact Hrest.
Qed.

(** [s[:n]] is [s] when [s] has at most [n] characters. *)
Lemma take_all (s : string) : forall n : nat, Str.len s <= n -> Str.take n s = s.
Proof.
  induction s as [| c s IH]; intros n; simpl; [reflexivity |].
  destruct (Str.continues c); intros Hlen.
  - rewrite IH by exact Hlen. reflexivity.
  - destruct n as [| n]; [lia |]. rewrite IH by lia. reflexivity.
Qed.

Lemma preview_len (text : string) : Str.len (preview text) <= 211.
Proof.
  unfold preview. rewrite !len_append. pose proof (len_take text 200) as H.
  change (Str.len "[Agent] ") with 8. change (Str.len "...") with 3. lia.
Qed.

Lemma message_texts_app l1 l2 :
  message_texts (l1 ++ l2) = message_texts l1 ++ message_texts l2.
Proof.
  induction l1 as [| ev l1 IH]; simpl; [reflexivity |].
  destruct ev; simpl; try exact IH.
  destruct (is_Message m), (content m); simpl; rewrite IH, ?app_assoc; reflexivity.
Qed.

Lemma message_texts_prints l : forallb is_print l = true -> message_texts l = [].
Proof.
  induction l as [| ev l IH]; simpl; [reflexivity |].
  destruct ev; simpl; try discriminate; exact IH.
Qed.

(** What [show_content] prints: the previews of the texts of the content. *)
Lemma show_content_printed c w :
  printed (events (show_content c w)) = map preview (content_texts c).
Proof.
  destruct c as [blocks | text |]; simpl; [| reflexivity ..].
  revert w. induction blocks as [| b blocks IH]; intros w; simpl; [reflexivity |].
  unfold bind. specialize (IH w).
  destruct (show_content_run (ContentList blocks) w) as (l & Hrun & _).
  simpl in Hrun. rewrite Hrun in IH. simpl in IH.
  destruct (block_text b) as [text |]; simpl; rewrite Hrun; simpl; rewrite IH; reflexivity.
Qed.

Lemma collect_printed verbose m msgs w :
  printed (events (collect verbose m msgs w))
  = if verbose
    then map preview (match is_Message m, content m with
                      | true, Some c => content_texts c
                      | _, _ => []
                      end)
    else [].
Proof.
  unfold collect. destruct (is_Message m); [| destruct verbose; reflexivity].
  unfold bind. destruct (content m) as [c |]; [| destruct verbose; reflexivity].
  destruct verbose; simpl; [| reflexivity].
  pose proof (show_content_printed c w) as H.
  destruct (show_content_run c w) as (l & Hrun & _). rewrite Hrun in *. simpl in *.
  rewrite app_nil_r. exact H.
Qed.

(** X7. The loop of [analyze_csv] shows at most 200 characters of a message.
    With [verbose] the lines it prints are, in order, exactly the previews of
    the texts of the messages of the stream: for each text one line made of
    the label, the first 200 characters of the text (all of it when it is
    shorter) and three dots; so no line has more than 211 characters,
    however long the texts are.  Without [verbose] it prints nothing. *)
Theorem message_previews_bounded
    (A : Type) (anext : A -> World -> Step A)
    (fuel : nat) (verbose : bool) (it : A) (msgs : list StreamItem) (w : World) :
  let log := events (drain anext fuel verbose it msgs w) in
  printed log
  = (if verbose
     then map (fun text => "[Agent] " +:+ Str.take 200 text +:+ "...") (message_texts log)
     else []) /\
  Forall (fun line => Str.len line <= 211) (printed log) /\
  (forall text : string,
     Str.len (Str.take 200 text) <= 200 /\
     (exists rest, text = Str.take 200 text +:+ rest) /\
     (Str.len text <= 200 -> Str.take 200 text = text)).
Proof.
  cbv zeta.
  assert (printed (events (drain anext fuel verbose it msgs w))
          = if verbose
            then map preview (message_texts (events (drain anext fuel verbose it msgs w)))
            else []) as Hshape.
  { revert it msgs w. induction fuel as [| fuel IH]; intros it msgs w; simpl.
    - destruct verbose; reflexivity.
    - unfold bind, stream_next.
      destruct (anext it w) as [m it' fs' | fs' | e fs']; simpl;
        [| destruct verbose; reflexivity ..].
      pose proof (collect_printed verbose m msgs (with_fs fs' w)) as Hc.
      destruct (collect_run verbose m msgs (with_fs fs' w)) as (msgs' & l & Hrun & Hl).
      rewrite Hrun in *. simpl in *.
      rewrite printed_app, message_texts_app, (message_texts_prints _ Hl), Hc, IH.
      destruct verbose; [| reflexivity].
      destruct (is_Message m), (content m); simpl; rewrite ?map_app; reflexivity. }
  split; [exact Hshape |]. split.
  - rewrite Hshape. destruct verbose; [| constructor].
    apply List.Forall_forall. intros line [text [<- _]]%in_map_iff. apply preview_len.
  - intros text. split; [apply len_take |]. split; [apply take_prefix | apply take_all].
Qed.

(** ** [analyze_csv_streaming] *)

(** X8. When the stream has been consumed to completion and the output path
    then holds a regular file, [analyze_csv_streaming] returns exactly the
    text of that file. *)
Theorem streaming_returns_report
    (A : Type) (query : string -> ClaudeCodeOptions -> A) (anext : A -> World -> Step A)
    (fuel : nat) (csv_path user_prompt output_path : string)
    (callback : option Callback) (w : World) (text : string) :
  let run :=
    analyze_csv_streaming query anext fuel csv_path user_prompt output_path callback w in
  stream_completed (events run) = true ->
  stat (w_cwd (final run)) (w_fs (final run)) (Path output_path) = inr (File text) ->
  result run = Returned text.
Proof.
  intros run Hdone Hfile.
  unfold run. rewrite analyze_csv_streaming_after_stream by exact Hdone.
  fold run. unfold epilogue_streaming, path_exists, read_text. rewrite Hfile. reflexivity.
Qed.

Lemma streaming_returns_report_demo :
  result (analyze_csv_streaming start_writing writing_agent 5
            "data/sample_sales.csv" "What sells best?" "output/analysis_report.txt"
            (Some idle_callback) demo_world)
  = Returned "Top product: tea".
Proof.
  apply streaming_returns_report; vm_compute; reflexivity.
Defined.


Lemma callback_args_app l1 l2 :
  callback_args (l1 ++ l2) = callback_args l1 ++ callback_args l2.
Proof.
  induction l1 as [| ev l1 IH]; simpl; [reflexivity |].
  destruct ev; simpl; rewrite IH; reflexivity.
Qed.

Lemma message_contents_app l1 l2 :
  message_contents (l1 ++ l2) = message_contents l1 ++ message_contents l2.
Proof.
  induction l1 as [| ev l1 IH]; simpl; [reflexivity |].
  destruct ev; simpl; try exact IH.
  destruct (is_Message m), (content m); simpl; rewrite IH; reflexivity.
Qed.

Lemma drain_streaming_calls (A : Type) (anext : A -> World -> Step A) fuel callback :
  forall it w,
    let r := drain_streaming anext fuel callback it w in
    printed (events r) = [] /\ callback_args (events r) = due_calls callback (events r).
Proof.
  induction fuel as [| fuel IH]; intros it w; cbv zeta.
  - destruct callback; split; reflexivity.
  - simpl. unfold bind, stream_next.
    destruct (anext it w) as [m it' fs' | fs' | e fs']; simpl;
      [| destruct callback; split; reflexivity ..].
    unfold notify, call_callback.
    destruct callback as [cb |] eqn:Hcb; simpl.
    + destruct (is_Message m) eqn:Hm; simpl.
      * destruct (content m) as [c |] eqn:Hc; simpl.
        -- destruct (cb c (with_fs fs' w)) as [[e |] fs'']; simpl.
           ++ split; reflexivity.
           ++ destruct (IH it' (with_fs fs'' (with_fs fs' w))) as (Hp & Ha).
              simpl in Ha. rewrite Hp, Ha. split; reflexivity.
        -- apply IH.
      * apply IH.
    + apply IH.
Qed.

(** X10. [analyze_csv_streaming] reports progress through the callback only:
    it prints nothing, and it calls the callback once for every item of the
    stream that is a message with a content, in the order of the stream; without a
    callback it makes no such call. *)
Theorem streaming_progress_by_callback
    (A : Type) (query : string -> ClaudeCodeOptions -> A) (anext : A -> World -> Step A)
    (fuel : nat) (csv_path user_prompt output_path : string)
    (callback : option Callback) (w : World) :
  let run :=
    analyze_csv_streaming query anext fuel csv_path user_prompt output_path callback w in
  printed (events run) = [] /\
  callback_args (events run)
  = match callback with
    | Some _ => message_contents (events run)
    | None => []
    end.
Proof.
  cbv zeta. rewrite analyze_csv_streaming_run. cbv zeta.
  destruct (fst (mkdir_p _ _ _)); [destruct callback; split; reflexivity |].
  match goal with |- context [drain_streaming ?a ?f ?c ?i ?x] =>
    destruct (drain_streaming_calls A a f c i x) as (Hp & Ha);
    set (loop := drain_streaming a f c i x) in * end.
  assert (forall tail,
            printed tail = [] -> callback_args tail = [] -> message_contents tail = [] ->
            printed (events loop ++ tail) = [] /\
            callback_args (events loop ++ tail)
            = match callback with
              | Some _ => message_contents (events loop ++ tail)
              | None => []
              end) as Hshape.
  { intros tail Ht1 Ht2 Ht3.
    rewrite printed_app, callback_args_app, message_contents_app, Hp, Ha, Ht1, Ht2, Ht3.
    unfold due_calls. destruct callback; rewrite ?app_nil_r; split; reflexivity. }
  destruct (result loop); cbn [events]; simpl.
  - apply Hshape; unfold epilogue_streaming; destruct (path_exists _ _ _); reflexivity.
  - rewrite <- (app_nil_r (events loop)). apply Hshape; reflexivity.
  - rewrite <- (app_nil_r (events loop)). apply Hshape; reflexivity.
Qed.

(** ** [main_async] *)

Lemma validate_csv_path_found (csv_path : string) (w : World) :
  path_exists (w_cwd w) (w_fs w) (Path csv_path) = true ->
  validate_csv_path csv_path w = MkRun (Returned true) w [EvExists (Path csv_path)].
Proof.
  intros Hcsv. unfold validate_csv_path, path_exists_m, bind.
  cbn [result final events]. rewrite Hcsv. reflexivity.
Qed.

Lemma validate_environment_by_key (w : World) :
  api_key_set w = true ->
  validate_environment w = MkRun (Returned true) w [EvGetenv "ANTHROPIC_API_KEY"].
Proof.
  unfold api_key_set. intros Hkey.
  destruct (w_environ w !! "ANTHROPIC_API_KEY") as [key |] eqn:Hget; [| discriminate].
  apply (validate_environment_set w key Hget). intros ->. discriminate.
Qed.

Lemma validate_environment_by_no_key (w : World) :
  api_key_set w = false ->
  validate_environment w
  = MkRun (Returned false) w
      [EvGetenv "ANTHROPIC_API_KEY";
       EvPrint "ERROR: ANTHROPIC_API_KEY environment variable not set.";
       EvPrint "Please set it with: export ANTHROPIC_API_KEY='your-api-key'"].
Proof.
  unfold api_key_set. intros Hkey. apply validate_environment_missing.
  destruct (w_environ w !! "ANTHROPIC_API_KEY") as [[| c key] |]; auto. discriminate.
Qed.

Lemma run_eq {T} (r1 r2 : Run T) :
  result r1 = result r2 -> final r1 = final r2 -> events r1 = events r2 -> r1 = r2.
Proof. destruct r1, r2; simpl; intros -> -> ->; reflexivity. Qed.

(** [try] around a sequence whose first part is [m]. *)
Lemma try_except_bind {T U} (m : M T) (k : T -> M U) (handler : Exn -> M U) (w : World) :
  try_except (bind m k) handler w
  = match result (m w) with
    | Returned v => after (events (m w)) (try_except (k v) handler (final (m w)))
    | Raised e =>
        if is_exception e then after (events (m w)) (handler e (final (m w)))
        else MkRun (Raised e) (final (m w)) (events (m w))
    | Pending => MkRun Pending (final (m w)) (events (m w))
    end.
Proof.
  unfold try_except, bind, after.
  destruct (result (m w)) as [v | e |]; cbn [result final events]; [| reflexivity ..].
  set (r := k v (final (m w))).
  destruct (result r) as [v' | e |] eqn:Hr; cbn [result final events]; rewrite ?Hr;
    [reflexivity | | reflexivity].
  destruct (is_exception e); cbn [result final events]; rewrite ?Hr; [| reflexivity].
  rewrite app_assoc. reflexivity.
Qed.

Section MainAsync.

Variable A : Type.
Variable query : string -> ClaudeCodeOptions -> A.
Variable anext : A -> World -> Step A.
Variable str_exn : Exn -> string.

(** The run of [main_async] once both checks have passed, in terms of the
    run of [analyze_csv] that it starts. *)
Lemma main_async_validated (fuel : nat) (w : World) :
  api_key_set w = true ->
  path_exists (w_cwd w) (w_fs w) (Path (CSV_FILE_PATH w)) = true ->
  main_async query anext str_exn fuel w
  = let call :=
      analyze_csv query anext fuel (CSV_FILE_PATH w) (USER_PROMPT w) OUTPUT_PATH true w in
    match result call with
    | Returned report =>
        MkRun (Returned 0) (final call) (main_intro w ++ events call ++ main_closing report)
    | Raised e =>
        if is_exception e
        then MkRun (Returned 1) (final call)
               (main_intro w ++ events call ++ main_failure str_exn e)
        else MkRun (Raised e) (final call) (main_intro w ++ events call)
    | Pending => MkRun Pending (final call) (main_intro w ++ events call)
    end.
Proof.
  intros Hkey Hcsv. unfold main_async.
  do 3 run_step. run_with (validate_environment_by_key w Hkey).
  cbn [negb]. do 2 run_step. run_with (validate_csv_path_found (CSV_FILE_PATH w) w Hcsv).
  cbn [negb]. do 6 run_step.
  rewrite try_except_bind. cbv zeta.
  set (call := analyze_csv query anext fuel (CSV_FILE_PATH w) (USER_PROMPT w)
                 OUTPUT_PATH true w).
  destruct (result call) as [report | e |].
  - do 6 (rewrite try_except_bind; cbn [print emit result final events]).
    apply run_eq; reflexivity.
  - destruct (is_exception e).
    + do 2 run_step. apply run_eq; reflexivity.
    + apply run_eq; reflexivity.
  - apply run_eq; reflexivity.
Qed.

(** The run of [main_async] when a check fails. *)
Lemma main_async_rejected (fuel : nat) (w : World) :
  api_key_set w = false \/
  path_exists (w_cwd w) (w_fs w) (Path (CSV_FILE_PATH w)) = false ->
  let run := main_async query anext str_exn fuel w in
  result run = Returned 1 /\ final run = w /\ queries (events run) = [].
Proof.
  intros Hbad run. unfold run, main_async.
  destruct (api_key_set w) eqn:Hkey.
  - destruct Hbad as [Hbad | Hcsv]; [discriminate |].
    do 3 run_step. run_with (validate_environment_by_key w Hkey).
    cbn [negb]. do 2 run_step.
    run_with (validate_csv_path_missing (CSV_FILE_PATH w) w Hcsv).
    repeat split.
  - do 3 run_step. run_with (validate_environment_by_no_key w Hkey).
    repeat split.
Qed.

End MainAsync.

(** X11. When both checks pass and [analyze_csv] returns a report,
    [main_async] returns exit code 0; after the log of the call it prints
    the closing lines, the report last. *)
Theorem main_async_reports_success
    (A : Type) (query : string -> ClaudeCodeOptions -> A) (anext : A -> World -> Step A)
    (str_exn : Exn -> string) (fuel : nat) (w : World) (report : string) :
  let call :=
    analyze_csv query anext fuel (CSV_FILE_PATH w) (USER_PROMPT w) OUTPUT_PATH true w in
  let run := main_async query anext str_exn fuel w in
  api_key_set w = true ->
  path_exists (w_cwd w) (w_fs w) (Path (CSV_FILE_PATH w)) = true ->
  result call = Returned report ->
  result run = Returned 0 /\
  final run = final call /\
  events run = main_intro w ++ events call ++ main_closing report /\
  last (printed (events run)) = Some report.
Proof.
  intros call run Hkey Hcsv Hcall. unfold run.
  rewrite (main_async_validated A query anext str_exn fuel w Hkey Hcsv). cbv zeta.
  fold call. rewrite Hcall. cbn [result final events].
  repeat split. rewrite !printed_app. rewrite app_assoc.
  change (printed (main_closing report))
    with ([Str.nl +:+ rule; "ANALYSIS COMPLETE"; rule;
           Str.nl +:+ "Results saved to: " +:+ OUTPUT_PATH;
           Str.nl +:+ "--- Analysis Report ---" +:+ Str.nl] ++ [report]).
  rewrite app_assoc. apply last_snoc.
Qed.

Lemma main_async_reports_success_demo :
  result (main_async start_writing writing_agent demo_str_exn 5 async_world) = Returned 0.
Proof.
  apply (main_async_reports_success nat start_writing writing_agent demo_str_exn 5
           async_world "Top product: tea"); vm_compute; reflexivity.
Defined.

(** X12. When both checks pass and [analyze_csv] raises, [main_async] catches
    what is an [Exception]: it prints the error, prints the traceback and
    returns exit code 1.  What is no [Exception] it lets through. *)
Theorem main_async_catches_exceptions
    (A : Type) (query : string -> ClaudeCodeOptions -> A) (anext : A -> World -> Step A)
    (str_exn : Exn -> string) (fuel : nat) (w : World) (e : Exn) :
  let call :=
    analyze_csv query anext fuel (CSV_FILE_PATH w) (USER_PROMPT w) OUTPUT_PATH true w in
  let run := main_async query anext str_exn fuel w in
  api_key_set w = true ->
  path_exists (w_cwd w) (w_fs w) (Path (CSV_FILE_PATH w)) = true ->
  result call = Raised e ->
  (is_exception e = true ->
   result run = Returned 1 /\
   events run = main_intro w ++ events call ++
                [EvPrint (Str.nl +:+ "ERROR: Analysis failed with error: " +:+ str_exn e);
                 EvTraceback e]) /\
  (is_exception e = false -> result run = Raised e).
Proof.
  intros call run Hkey Hcsv Hcall. unfold run.
  rewrite (main_async_validated A query anext str_exn fuel w Hkey Hcsv). cbv zeta.
  fold call. rewrite Hcall.
  split; intros ->; cbn [result events]; repeat split.
Qed.

Lemma main_async_catches_exceptions_demo :
  result (main_async start_writing failing_agent demo_str_exn 5 async_world) = Returned 1.
Proof.
  apply (main_async_catches_exceptions nat start_writing failing_agent demo_str_exn 5
           async_world (AgentError true "connection lost")); vm_compute; reflexivity.
Defined.

(** ** [main] *)

(** The exit codes of [main_async]. *)
Lemma main_async_codes
    (A : Type) (query : string -> ClaudeCodeOptions -> A) (anext : A -> World -> Step A)
    (str_exn : Exn -> string) (fuel : nat) (w : World) :
  match result (main_async query anext str_exn fuel w) with
  | Returned code => code = 0 \/ code = 1
  | Raised e => True
  | Pending => True
  end.
Proof.
  destruct (api_key_set w) eqn:Hkey;
    [destruct (path_exists (w_cwd w) (w_fs w) (Path (CSV_FILE_PATH w))) eqn:Hcsv |].
  - rewrite (main_async_validated A query anext str_exn fuel w Hkey Hcsv). cbv zeta.
    destruct (result (analyze_csv _ _ _ _ _ _ _ _)) as [report | e |]; cbn [result];
      [left; reflexivity | | exact I].
    destruct (is_exception e) eqn:He; cbn [result]; [right; reflexivity | exact I].
  - destruct (main_async_rejected A query anext str_exn fuel w (or_intror Hcsv))
      as (-> & _). right. reflexivity.
  - destruct (main_async_rejected A query anext str_exn fuel w (or_introl Hkey))
      as (-> & _). right. reflexivity.
Qed.

Lemma nth_argv {T} (argv : list T) (d1 d2 : T) :
  match argv with _ :: a :: _ => a | _ => d1 end = nth 1 argv d1 /\
  match argv with _ :: _ :: b :: _ => b | _ => d2 end = nth 2 argv d2.
Proof. destruct argv as [| a0 [| a1 [| a2 rest]]]; split; reflexivity. Qed.

(** The run of [main] where no event loop runs, in terms of the run of
    [main_async] that it starts. *)
Lemma main_run
    (A : Type) (query : string -> ClaudeCodeOptions -> A) (anext : A -> World -> Step A)
    (str_exn : Exn -> string) (fuel : nat) (argv : list string) (w : World) :
  w_loop w = false ->
  let inner :=
    main_async query anext str_exn fuel
      (with_loop true
         (with_globals (nth 1 argv (CSV_FILE_PATH w)) (nth 2 argv (USER_PROMPT w)) w)) in
  main query anext str_exn fuel argv w
  = MkRun (match result inner with
           | Returned code => Raised (SystemExit code)
           | Raised e => Raised e
           | Pending => Pending
           end)
      (with_loop false (final inner)) (events inner).
Proof.
  intros Hloop. cbv zeta. unfold main.
  run_step. cbv zeta.
  destruct (nth_argv argv (CSV_FILE_PATH w) (USER_PROMPT w)) as [-> ->].
  unfold after, bind, asyncio_run. cbn [w_loop with_globals]. rewrite Hloop.
  cbn [result final events].
  destruct (result (main_async _ _ _ _ _)); cbn [result final events raise];
    rewrite ?app_nil_r; reflexivity.
Qed.

(** X13. Started where no event loop runs, [main] never returns normally:
    whenever [main_async] returns, its code is 0 or 1 and [main] leaves
    through [SystemExit] with that code. *)
Theorem main_exits_with_code
    (A : Type) (query : string -> ClaudeCodeOptions -> A) (anext : A -> World -> Step A)
    (str_exn : Exn -> string) (fuel : nat) (argv : list string) (w : World) :
  w_loop w = false ->
  let inner :=
    main_async query anext str_exn fuel
      (with_loop true
         (with_globals (nth 1 argv (CSV_FILE_PATH w)) (nth 2 argv (USER_PROMPT w)) w)) in
  let run := main query anext str_exn fuel argv w in
  (forall v, result run <> Returned v) /\
  (forall code, result inner = Returned code ->
     (code = 0 \/ code = 1) /\ result run = Raised (SystemExit code)).
Proof.
  intros Hloop inner run. unfold run.
  rewrite (main_run A query anext str_exn fuel argv w Hloop). cbv zeta. fold inner.
  pose proof (main_async_codes A query anext str_exn fuel
    (with_loop true
       (with_globals (nth 1 argv (CSV_FILE_PATH w)) (nth 2 argv (USER_PROMPT w)) w)))
    as Hcodes.
  fold inner in Hcodes. cbn [result].
  destruct (result inner) as [code | e |].
  - split; [discriminate |]. intros code' [= <-]. split; [exact Hcodes | reflexivity].
  - split; discriminate.
  - split; discriminate.
Qed.

Lemma main_exits_with_code_demo :
  result (main start_writing writing_agent demo_str_exn 5
            ["main.py"; "data/sample_sales.csv"; "What sells best?"] demo_world)
  = Raised (SystemExit 0).
Proof.
  apply (main_exits_with_code nat start_writing writing_agent demo_str_exn 5
           ["main.py"; "data/sample_sales.csv"; "What sells best?"] demo_world).
  - reflexivity.
  - vm_compute. reflexivity.
Defined.



(** ** The script part of [csv_analysis_agent.py] *)

Lemma bind_run {T U} (m : M T) (k : T -> M U) (w : World) :
  bind m k w
  = match result (m w) with
    | Returned v => after (events (m w)) (k v (final (m w)))
    | Raised e => MkRun (Raised e) (final (m w)) (events (m w))
    | Pending => MkRun Pending (final (m w)) (events (m w))
    end.
Proof. unfold bind, after. destruct (result (m w)); reflexivity. Qed.

(** The wrapper where no event loop runs, in terms of the call it wraps. *)
Lemma run_analysis_run
    (A : Type) (query : string -> ClaudeCodeOptions -> A) (anext : A -> World -> Step A)
    (fuel : nat) (csv_path user_prompt output_path : string) (verbose : bool)
    (w : World) :
  w_loop w = false ->
  let call :=
    analyze_csv query anext fuel csv_path user_prompt output_path verbose
      (with_loop true w) in
  run_analysis query anext fuel csv_path user_prompt output_path verbose w
  = MkRun (result call) (with_loop false (final call)) (events call).
Proof. intros Hloop. unfold run_analysis, asyncio_run. rewrite Hloop. reflexivity. Qed.

(** X15. Started with fewer than two arguments, the script prints its two
    usage lines and leaves with exit code 1; it makes no directory and calls
    no agent. *)
Theorem agent_script_usage
    (A : Type) (query : string -> ClaudeCodeOptions -> A) (anext : A -> World -> Step A)
    (fuel : nat) (argv : list string) (w : World) :
  length argv < 3 ->
  agent_script query anext fuel argv w
  = MkRun (Raised (SystemExit 1)) w
      [EvPrint "Usage: python csv_analysis_agent.py <csv_path> <prompt>";
       EvPrint "Example: python csv_analysis_agent.py data/sales.csv 'What are the top products?'"].
Proof.
  intros Hlen. destruct argv as [| a0 [| a1 [| a2 rest]]]; simpl in Hlen;
    try lia; reflexivity.
Qed.

Lemma agent_script_usage_demo :
  result (agent_script start_writing writing_agent 5
            ["csv_analysis_agent.py"; "data/sample_sales.csv"] demo_world)
  = Raised (SystemExit 1).
Proof.
  rewrite (agent_script_usage nat start_writing writing_agent 5
             ["csv_analysis_agent.py"; "data/sample_sales.csv"] demo_world).
  - reflexivity.
  - simpl. lia.
Defined.

(** X16. Started with two arguments where no event loop runs, the script runs
    [analyze_csv] on them with the default output path and with progress
    messages.  It catches nothing: an exception of the call leaves the script
    as it is; a report is printed last, after three heading lines. *)
Theorem agent_script_runs_analysis
    (A : Type) (query : string -> ClaudeCodeOptions -> A) (anext : A -> World -> Step A)
    (fuel : nat) (argv : list string) (w : World) :
  let call :=
    analyze_csv query anext fuel (nth 1 argv EmptyString) (nth 2 argv EmptyString)
      "output/analysis_report.txt" true (with_loop true w) in
  let run := agent_script query anext fuel argv w in
  3 <= length argv ->
  w_loop w = false ->
  final run = with_loop false (final call) /\
  match result call with
  | Returned report =>
      result run = Returned tt /\
      events run = events call ++
                   [EvPrint (Str.nl +:+ Str.repeat "=" 60);
                    EvPrint "FINAL REPORT";
                    EvPrint (Str.repeat "=" 60);
                    EvPrint report]
  | Raised e => result run = Raised e /\ events run = events call
  | Pending => result run = Pending /\ events run = events call
  end.
Proof.
  intros call run Hlen Hloop. unfold run.
  destruct argv as [| a0 [| a1 [| a2 rest]]]; simpl in Hlen; try lia.
  simpl in call. unfold agent_script. rewrite bind_run.
  rewrite (run_analysis_run A query anext fuel a1 a2 "output/analysis_report.txt" true w
             Hloop).
  cbv zeta. fold call. cbn [result final events].
  destruct (result call) as [report | e |]; [| repeat split ..].
  do 3 run_step. repeat split.
Qed.

Lemma agent_script_runs_analysis_demo :
  final (agent_script start_writing writing_agent 5
           ["csv_analysis_agent.py"; "data/sample_sales.csv"; "What sells best?"]
           demo_world)
  = with_loop false (final (analyze_csv start_writing writing_agent 5
                              "data/sample_sales.csv" "What sells best?"
                              "output/analysis_report.txt" true
                              (with_loop true demo_world))).
Proof.
  pose proof (agent_script_runs_analysis nat start_writing writing_agent 5
                ["csv_analysis_agent.py"; "data/sample_sales.csv"; "What sells best?"]
                demo_world) as H.
  cbv zeta in H. cbn [nth length] in H.
  destruct H as [H _]; [lia | reflexivity | exact H].
Defined.

(** ** The order of the calls in [analyze_csv_streaming] *)

(** X17. In every run of [analyze_csv_streaming], complete or not, a look at
    a file ([exists()] or [read_text()]) comes only after the stream has
    ended; no turn of the stream and no call of the callback follows it. *)
Theorem streaming_read_after_stream
    (A : Type) (query : string -> ClaudeCodeOptions -> A) (anext : A -> World -> Step A)
    (fuel : nat) (csv_path user_prompt output_path : string)
    (callback : option Callback) (w : World) (pre post : list Event) (ev : Event) :
  events (analyze_csv_streaming query anext fuel csv_path user_prompt output_path
            callback w)
    = pre ++ ev :: post ->
  file_access ev = true ->
  stream_completed pre = true /\
  existsb stream_step post = false /\
  callback_args post = [].
Proof.
  rewrite analyze_csv_streaming_run. cbv zeta.
  destruct (fst (mkdir_p _ _ _)).
  - cbn [events]. intros Heq Hev.
    destruct (split_in_second file_access [EvMkdir (parent (Path output_path))] []
                pre post ev) as (mid & _ & Hmid);
      [reflexivity | exact Heq | exact Hev | destruct mid; discriminate].
  - match goal with |- context [drain_streaming ?a ?f ?c ?i ?x] =>
      destruct (drain_streaming_outcome A a f c i x) as (_ & Hall & Hres);
      set (loop := drain_streaming a f c i x) in * end.
    set (head := [EvMkdir (parent (Path output_path));
                  EvQuery (streaming_prompt (abs_path w csv_path) user_prompt
                             (abs_path w output_path)) agent_options]).
    assert (forallb (fun e => negb (file_access e)) (head ++ events loop) = true)
      as Hquiet.
    { rewrite forallb_app, (loop_event_no_access _ Hall). reflexivity. }
    destruct (result loop); cbn [events]; intros Heq Hev.
    + rewrite app_assoc in Heq.
      destruct (split_in_second file_access _ _ pre post ev Hquiet Heq Hev)
        as (mid & -> & Htail).
      split.
      * destruct Hres as (pre' & -> & _). unfold stream_completed.
        rewrite !existsb_app. simpl. rewrite !orb_true_r. reflexivity.
      * revert Htail. unfold epilogue_streaming.
        destruct (path_exists _ _ _); cbn [events]; intros Htail;
          destruct mid as [| e1 [| e2 [| e3 mid]]]; try discriminate;
          inversion Htail; subst; split; reflexivity.
    + rewrite <- (app_nil_r (head ++ events loop)) in Heq.
      destruct (split_in_second file_access _ _ pre post ev Hquiet Heq Hev)
        as (mid & _ & Hmid).
      destruct mid; discriminate.
    + rewrite <- (app_nil_r (head ++ events loop)) in Heq.
      destruct (split_in_second file_access _ _ pre post ev Hquiet Heq Hev)
        as (mid & _ & Hmid).
      destruct mid; discriminate.
Qed.

Lemma streaming_read_after_stream_demo :
  stream_completed
    (firstn 5 (events (analyze_csv_streaming start_writing writing_agent 5
                         "data/sample_sales.csv" "What sells best?"
                         "output/analysis_report.txt" None demo_world)))
  = true.
Proof.
  apply (streaming_read_after_stream nat start_writing writing_agent 5
           "data/sample_sales.csv" "What sells best?" "output/analysis_report.txt"
           None demo_world
           (firstn 5 (events (analyze_csv_streaming start_writing writing_agent 5
                                "data/sample_sales.csv" "What sells best?"
                                "output/analysis_report.txt" None demo_world)))
           [EvReadText (Path "output/analysis_report.txt")]
           (EvExists (Path "output/analysis_report.txt"))).
  - vm_compute. reflexivity.
  - reflexivity.
Defined.
